(** * Questrade balancer: the greedy share allocator of [main.py]

    A shallow embedding of the portfolio model and of the rebalancing loop,
    together with the properties stated about them.

    Modelling choices.
    - Python [float] and [int] amounts are exact rationals ([Q]) and integers
      ([Z]): binary rounding of the float operations is not modelled, decimal
      rounding ([round(x, n)], half to even) is.
    - [Asset] and [PortFolio] instances are mutable objects; they live in a
      store and are passed around as references, so that aliasing and
      [copy.deepcopy] are visible.
    - A Python exception is an outcome of its own; the [while] loop takes
      fuel.
    - [print] calls have no effect on the values computed and are left out. *)

From Stdlib Require Import ZArith QArith Qabs Qround List String Ascii Bool.
From Stdlib Require Import Lia Lqa DecimalString.
Import ListNotations.

Local Open Scope Z_scope.
Local Open Scope Q_scope.

(** ** Numbers *)

(** [round(x)] to an integer, ties going to the even neighbour. *)
Definition round_half_even (x : Q) : Z :=
  let f := Qfloor x in
  match Qcompare (x - inject_Z f) (1 # 2) with
  | Lt => f
  | Gt => (f + 1)%Z
  | Eq => if Z.even f then f else (f + 1)%Z
  end.

(** [round(x, ndigits)]. *)
Definition py_round (x : Q) (ndigits : nat) : Q :=
  let scale := (10 ^ Z.of_nat ndigits)%Z in
  Qmake (round_half_even (x * inject_Z scale)) (Z.to_pos scale).

(** [sum(l)]: the accumulator starts at [0] and runs left to right. *)
Definition py_sum (l : list Q) : Q := fold_left Qplus l 0.

(** ** Strings *)

Definition upper_ascii (c : ascii) : ascii :=
  let n := nat_of_ascii c in
  if ((97 <=? n) && (n <=? 122))%nat then ascii_of_nat (n - 32) else c.

(** [s.upper()] on ASCII text. *)
Fixpoint upper (s : string) : string :=
  match s with
  | EmptyString => EmptyString
  | String c r => String (upper_ascii c) (upper r)
  end.

Definition digits (n : Z) : string := NilZero.string_of_int (Z.to_int n).

(** The fractional digits printed for [m] thousandths, [0 <= m < 1000]:
    trailing zeros are dropped, one digit at least is kept. *)
Definition frac_digits (m : Z) : string :=
  let d1 := (m / 100)%Z in
  let d2 := ((m / 10) mod 10)%Z in
  let d3 := (m mod 10)%Z in
  if (d3 =? 0)%Z
  then if (d2 =? 0)%Z then digits d1
       else (digits d1 ++ digits d2)%string
  else (digits d1 ++ digits d2 ++ digits d3)%string.

(** [str(x)] for a float [x] that came out of [round(_, 3)] (a whole number
    of thousandths, below [10^16] in size, where Python prints in positional
    notation): the shortest decimal that reads back as [x]. *)
Definition str_float (x : Q) : string :=
  let m := Qfloor (x * 1000) in
  let a := Z.abs m in
  ((if (m <? 0)%Z then "-" else "")
   ++ digits (a / 1000) ++ "." ++ frac_digits (a mod 1000))%string.

(** [min(keys)] over strings: the first least element in code-point order;
    [None] stands for the [ValueError] raised on an empty sequence. *)
Definition min_str (l : list string) : option string :=
  match l with
  | [] => None
  | x :: r => Some (fold_left (fun m y => if String.ltb y m then y else m) r x)
  end.

(** ** Classification map *)

Inductive AssetClassification : Type :=
| STOCKS_USA_SMALL_CAP
| STOCKS_USA_SP500
| STOCKS_EMERGING_MARKET
| STOCKS_INTERNATIONAL
| BONDS_CORP
| BONDS_EMERGING_MARKET
| REAL_ESTATE.

Definition AssetClassification_eqb (a b : AssetClassification) : bool :=
  match a, b with
  | STOCKS_USA_SMALL_CAP, STOCKS_USA_SMALL_CAP
  | STOCKS_USA_SP500, STOCKS_USA_SP500
  | STOCKS_EMERGING_MARKET, STOCKS_EMERGING_MARKET
  | STOCKS_INTERNATIONAL, STOCKS_INTERNATIONAL
  | BONDS_CORP, BONDS_CORP
  | BONDS_EMERGING_MARKET, BONDS_EMERGING_MARKET
  | REAL_ESTATE, REAL_ESTATE => true
  | _, _ => false
  end.

(** [asset.classification == classification]; the attribute is [None] for a
    symbol that [_get_classification] does not know. *)
Definition classification_eqb (a b : option AssetClassification) : bool :=
  match a, b with
  | Some x, Some y => AssetClassification_eqb x y
  | None, None => true
  | _, _ => false
  end.

Module PercentageTargets.
Definition STOCKS_USA_SMALL_CAP : Q := 10 # 100.
Definition STOCKS_USA_SP500 : Q := 40 # 100.
Definition STOCKS_EMERGING_MARKET : Q := 5 # 100.
Definition STOCKS_INTERNATIONAL : Q := 25 # 100.
Definition BONDS_CORP : Q := 10 # 100.
Definition BONDS_EMERGING_MARKET : Q := 5 # 100.
Definition REAL_ESTATE : Q := 5 # 100.
End PercentageTargets.

(** ** Exceptions and outcomes *)

Inductive exn : Type :=
| ZeroDivisionError
| RuntimeError (msg : string)
| ValueError
| AttributeError.

Inductive outcome (A : Type) : Type :=
| Return (a : A)
| Raise (e : exn)
| OutOfFuel.

Arguments Return {A} a.
Arguments Raise {A} e.
Arguments OutOfFuel {A}.

(** The message of the [RuntimeError] of [get_percentage_target], for the
    classification [None]. *)
Definition no_target_message : string :=
  "None case does not match any percentage target".

Definition get_percentage_target
    (classification : option AssetClassification) : outcome Q :=
  match classification with
  | Some STOCKS_USA_SMALL_CAP => Return PercentageTargets.STOCKS_USA_SMALL_CAP
  | Some STOCKS_USA_SP500 => Return PercentageTargets.STOCKS_USA_SP500
  | Some STOCKS_EMERGING_MARKET => Return PercentageTargets.STOCKS_EMERGING_MARKET
  | Some STOCKS_INTERNATIONAL => Return PercentageTargets.STOCKS_INTERNATIONAL
  | Some BONDS_CORP => Return PercentageTargets.BONDS_CORP
  | Some BONDS_EMERGING_MARKET => Return PercentageTargets.BONDS_EMERGING_MARKET
  | Some REAL_ESTATE => Return PercentageTargets.REAL_ESTATE
  | None => Raise (RuntimeError no_target_message)
  end.

(** ** Objects and the store *)

Record Asset : Type := mkAsset {
  symbol : string;
  market_price : Q;
  quantity : Z;
  description : string;
  classification : option AssetClassification
}.

Definition _get_classification (symbol : string) : option AssetClassification :=
  if String.eqb symbol "VNQ" then Some REAL_ESTATE
  else if String.eqb symbol "VWO" then Some STOCKS_EMERGING_MARKET
  else if String.eqb symbol "VCIT" then Some BONDS_CORP
  else if String.eqb symbol "VTWO" then Some STOCKS_USA_SMALL_CAP
  else if String.eqb symbol "VXUS" then Some STOCKS_INTERNATIONAL
  else if String.eqb symbol "VOO" then Some STOCKS_USA_SP500
  else if String.eqb symbol "VWOB" then Some BONDS_EMERGING_MARKET
  else None.

(** The fields [Asset.__init__] sets. *)
Definition Asset_init (symbol : string) (market_price : Q) (quantity : Z)
    (description : string) : Asset :=
  let s := upper symbol in
  mkAsset s (py_round market_price 2) quantity description
          (_get_classification s).

(** References to [Asset] objects and to [PortFolio] objects. *)
Definition aref := nat.
Definition pref := nat.

Record PortFolio : Type := mkPortFolio {
  assets : list aref;
  total_value : Q
}.

Record Heap : Type := mkHeap {
  asset_objs : list Asset;
  portfolio_objs : list PortFolio
}.

Definition no_asset : Asset := mkAsset "" 0 0 "" None.
Definition no_portfolio : PortFolio := mkPortFolio [] 0.

Definition asset_at (h : Heap) (a : aref) : Asset :=
  nth a (asset_objs h) no_asset.
Definition portfolio_at (h : Heap) (p : pref) : PortFolio :=
  nth p (portfolio_objs h) no_portfolio.

Fixpoint update_nth {A : Type} (n : nat) (x : A) (l : list A) : list A :=
  match l, n with
  | [], _ => []
  | _ :: r, O => x :: r
  | y :: r, S n' => y :: update_nth n' x r
  end.

Definition set_asset (a : aref) (x : Asset) (h : Heap) : Heap :=
  mkHeap (update_nth a x (asset_objs h)) (portfolio_objs h).
Definition set_portfolio (p : pref) (x : PortFolio) (h : Heap) : Heap :=
  mkHeap (asset_objs h) (update_nth p x (portfolio_objs h)).

Definition alloc_asset (x : Asset) (h : Heap) : aref * Heap :=
  (List.length (asset_objs h), mkHeap (asset_objs h ++ [x]) (portfolio_objs h)).
Definition alloc_portfolio (x : PortFolio) (h : Heap) : pref * Heap :=
  (List.length (portfolio_objs h), mkHeap (asset_objs h) (portfolio_objs h ++ [x])).

(** ** Methods of [Asset] and [PortFolio] *)

Definition get_value (h : Heap) (a : aref) : Q :=
  inject_Z (quantity (asset_at h a)) * market_price (asset_at h a).

(** [sum([asset.get_value() for asset in self.assets])] *)
Definition sum_values (h : Heap) (l : list aref) : Q :=
  py_sum (map (get_value h) l).

Definition update_total_value (self : pref) (h : Heap) : Heap :=
  let p := portfolio_at h self in
  set_portfolio self (mkPortFolio (assets p) (sum_values h (assets p))) h.

(** [PortFolio(assets)]: a new object whose total is computed at once. *)
Definition PortFolio_init (l : list aref) (h : Heap) : pref * Heap :=
  let (self, h1) := alloc_portfolio (mkPortFolio l 0) h in
  (self, update_total_value self h1).

Definition get_percent_classification (h : Heap) (self : pref)
    (c : option AssetClassification) : outcome Q :=
  let p := portfolio_at h self in
  let asset_value :=
    sum_values h
      (filter (fun a => classification_eqb (classification (asset_at h a)) c)
              (assets p)) in
  if Qeq_bool (total_value p) 0 then Raise ZeroDivisionError
  else Return (asset_value / total_value p).

(** The loop of [get_difference_from_target], from the running
    [difference]. *)
Fixpoint difference_loop (h : Heap) (self : pref) (l : list aref)
    (difference : Q) : outcome Q :=
  match l with
  | [] => Return difference
  | a :: r =>
      let c := classification (asset_at h a) in
      match get_percent_classification h self c with
      | Return percent_classification =>
          match get_percentage_target c with
          | Return percent_target =>
              difference_loop h self r
                (difference + Qabs (percent_classification - percent_target))
          | Raise e => Raise e
          | OutOfFuel => OutOfFuel
          end
      | Raise e => Raise e
      | OutOfFuel => OutOfFuel
      end
  end.

Definition get_difference_from_target (h : Heap) (self : pref) : outcome Q :=
  match difference_loop h self (assets (portfolio_at h self)) 0 with
  | Return difference => Return (py_round difference 3)
  | Raise e => Raise e
  | OutOfFuel => OutOfFuel
  end.

(** [get_asset]: the first asset of the list with that symbol, if any. *)
Definition get_asset (h : Heap) (self : pref) (s : string) : option aref :=
  match filter (fun a => String.eqb (symbol (asset_at h a)) s)
               (assets (portfolio_at h self)) with
  | a :: _ => Some a
  | [] => None
  end.

(** [buy_symbol]: the store after the call and what the call did. *)
Definition buy_symbol (self : pref) (s : string) (shares : Z) (h : Heap)
    : outcome unit * Heap :=
  match get_asset h self s with
  | Some matching_asset =>
      let x := asset_at h matching_asset in
      let h1 :=
        set_asset matching_asset
          (mkAsset (symbol x) (market_price x) (quantity x + shares)
                   (description x) (classification x)) h in
      (Return tt, update_total_value self h1)
  | None => (Raise (RuntimeError ("No owned shares: " ++ s)), h)
  end.

(** ** Computations on the store *)

Definition M (A : Type) : Type := Heap -> outcome A * Heap.

Definition ret {A : Type} (a : A) : M A := fun h => (Return a, h).

Definition raise {A : Type} (e : exn) : M A := fun h => (Raise e, h).

Definition bind {A B : Type} (m : M A) (k : A -> M B) : M B :=
  fun h =>
    match m h with
    | (Return a, h1) => k a h1
    | (Raise e, h1) => (Raise e, h1)
    | (OutOfFuel, h1) => (OutOfFuel, h1)
    end.

(** A method that only reads the store. *)
Definition reading {A : Type} (f : Heap -> outcome A) : M A :=
  fun h => (f h, h).

(** A constructor or copy: it cannot fail. *)
Definition making {A : Type} (f : Heap -> A * Heap) : M A :=
  fun h => let (a, h1) := f h in (Return a, h1).

Declare Scope monad_scope.
Delimit Scope monad_scope with monad.
Notation "x <- m ;; k" := (bind m (fun x => k))
  (at level 61, m at next level, right associativity) : monad_scope.
Notation "m ;;; k" := (bind m (fun _ => k))
  (at level 61, right associativity) : monad_scope.
Local Open Scope monad_scope.

(** [for x in l: acc = body(x, acc)] *)
Fixpoint for_each {A B : Type} (l : list A) (body : A -> B -> M B) (acc : B)
    : M B :=
  match l with
  | [] => ret acc
  | x :: r => bind (body x acc) (for_each r body)
  end.

(** ** [copy.deepcopy] *)

(** The memo of a deep copy: which objects have a copy already, so that an
    object met twice is copied once. *)
Definition memo_get (a : aref) (memo : list (aref * aref)) : option aref :=
  match find (fun e => Nat.eqb (fst e) a) memo with
  | Some e => Some (snd e)
  | None => None
  end.

Fixpoint deepcopy_assets (l : list aref) (memo : list (aref * aref))
    (h : Heap) : list aref * list (aref * aref) * Heap :=
  match l with
  | [] => ([], memo, h)
  | a :: r =>
      match memo_get a memo with
      | Some a' =>
          let '(r', memo', h') := deepcopy_assets r memo h in
          (a' :: r', memo', h')
      | None =>
          let (a', h1) := alloc_asset (asset_at h a) h in
          let '(r', memo', h') := deepcopy_assets r ((a, a') :: memo) h1 in
          (a' :: r', memo', h')
      end
  end.

(** [copy.deepcopy(portfolio.assets)] *)
Definition deepcopy_list (l : list aref) (h : Heap) : list aref * Heap :=
  let '(l', _, h') := deepcopy_assets l [] h in (l', h').

(** [copy.deepcopy(portfolio)]: the attributes are copied as they are,
    [total_value] is not recomputed. *)
Definition deepcopy_portfolio (p : pref) (h : Heap) : pref * Heap :=
  let x := portfolio_at h p in
  let (l', h1) := deepcopy_list (assets x) h in
  alloc_portfolio (mkPortFolio l' (total_value x)) h1.

(** ** The dictionary of candidates *)

Definition dict : Type := list (string * pref).

Fixpoint dict_get (k : string) (d : dict) : option pref :=
  match d with
  | [] => None
  | (k', v) :: r => if String.eqb k' k then Some v else dict_get k r
  end.

(** [d[k] = v]: an existing key keeps its place and takes the new value. *)
Fixpoint dict_set (k : string) (v : pref) (d : dict) : dict :=
  match d with
  | [] => [(k, v)]
  | (k', v') :: r =>
      if String.eqb k' k then (k', v) :: r else (k', v') :: dict_set k v r
  end.

Definition dict_keys (d : dict) : list string := map fst d.

(** ** The allocator *)

Definition CASH_TO_INVEST : Z := 17000.

(** The body of [for symbol in symbol_list]. A [PortFolio] object is always
    true, so [if diff_asset_dict.get(diff_key)] asks whether the key is
    there. *)
Definition explore_symbol (working_portfolio : pref) (s : string)
    (diff_asset_dict : dict) : M dict :=
  new_assets <- making (fun h =>
      deepcopy_list (assets (portfolio_at h working_portfolio)) h) ;;
  new_portfolio <- making (PortFolio_init new_assets) ;;
  buy_symbol new_portfolio s 1 ;;;
  difference <- reading (fun h => get_difference_from_target h new_portfolio) ;;
  let diff_key := str_float difference in
  match dict_get diff_key diff_asset_dict with
  | Some _ => buy_symbol new_portfolio s 1
  | None => ret tt
  end ;;;
  ret (dict_set diff_key new_portfolio diff_asset_dict).

(** One turn of the [while] loop, up to the new working portfolio. *)
Definition choose_candidate (working_portfolio : pref)
    (symbol_list : list string) : M pref :=
  diff_asset_dict <- for_each symbol_list (explore_symbol working_portfolio) [] ;;
  match min_str (dict_keys diff_asset_dict) with
  | None => raise ValueError
  | Some min_diff =>
      match dict_get min_diff diff_asset_dict with
      | Some p => ret p
      | None => raise AttributeError
      end
  end.

Fixpoint rebalance_loop (fuel : nat) (cash : Q)
    (working_portfolio previous_portfolio : pref)
    (symbol_list : list string) : M pref :=
  if Qle_bool cash 0 then ret previous_portfolio
  else
    match fuel with
    | O => fun h => (OutOfFuel, h)
    | S fuel' =>
        new_working <- choose_candidate working_portfolio symbol_list ;;
        cost_to_buy <- reading (fun h =>
            Return (py_round (total_value (portfolio_at h new_working)
                              - total_value (portfolio_at h working_portfolio))
                             2)) ;;
        rebalance_loop fuel' (cash - cost_to_buy) new_working
                       working_portfolio symbol_list
    end.

(** [rebalance_portfolio] with the cash to invest as an argument. *)
Definition rebalance (fuel : nat) (cash : Q) (portfolio : pref) : M pref :=
  working_portfolio <- making (deepcopy_portfolio portfolio) ;;
  symbol_list <- reading (fun h =>
      Return (map (fun a => symbol (asset_at h a))
                  (assets (portfolio_at h portfolio)))) ;;
  rebalance_loop fuel cash working_portfolio working_portfolio symbol_list.

Definition rebalance_portfolio (fuel : nat) (portfolio : pref) : M pref :=
  rebalance fuel (inject_Z CASH_TO_INVEST) portfolio.

(** ** Building a store from raw records *)

(** [generate_portfolio]: one new [Asset] per record, then the
    [PortFolio]. *)
Definition generate_portfolio
    (records : list (string * Q * Z * string)) (h : Heap) : pref * Heap :=
  let step (acc : list aref * Heap) (r : string * Q * Z * string) :=
    let '(s, price, qty, descr) := r in
    let (a, h1) := alloc_asset (Asset_init s price qty descr) (snd acc) in
    (fst acc ++ [a], h1) in
  let (asset_list, h1) := fold_left step records ([], h) in
  PortFolio_init asset_list h1.

Definition empty_heap : Heap := mkHeap [] [].

(** ** The purchases between two portfolios *)

(** The loop of [get_difference_portfolio] over the assets of the new
    portfolio, [newly_bought_assets] being the list built so far. An [Asset]
    object is always true, so [if starting_asset] asks whether the symbol is
    held at the start; a symbol that is not contributes the asset object
    itself, not a copy. *)
Fixpoint difference_assets (starting_portfolio : pref) (l : list aref)
    (newly_bought_assets : list aref) (h : Heap) : list aref * Heap :=
  match l with
  | [] => (newly_bought_assets, h)
  | asset :: r =>
      let x := asset_at h asset in
      match get_asset h starting_portfolio (symbol x) with
      | Some starting_asset =>
          let bought_quantity :=
            (quantity x - quantity (asset_at h starting_asset))%Z in
          if (0 <? bought_quantity)%Z
          then
            let (newly_bought_asset, h1) :=
              alloc_asset (Asset_init (symbol x) (market_price x)
                                      bought_quantity (description x)) h in
            difference_assets starting_portfolio r
              (newly_bought_assets ++ [newly_bought_asset]) h1
          else difference_assets starting_portfolio r newly_bought_assets h
      | None =>
          difference_assets starting_portfolio r
            (newly_bought_assets ++ [asset]) h
      end
  end.

Definition get_difference_portfolio (starting_portfolio new_portfolio : pref)
    (h : Heap) : pref * Heap :=
  let (newly_bought_assets, h1) :=
    difference_assets starting_portfolio
      (assets (portfolio_at h new_portfolio)) [] h in
  PortFolio_init newly_bought_assets h1.

(** * Vocabulary of the properties *)

(** The store only grows: [extends h h'] says that [h'] is [h] followed by
    new objects, the objects of [h] being as they were. *)
Definition extends (h h' : Heap) : Prop :=
  (exists sa, asset_objs h' = asset_objs h ++ sa) /\
  (exists sp, portfolio_objs h' = portfolio_objs h ++ sp).

(** The reference points to an object of the store. *)
Definition valid_asset (h : Heap) (a : aref) : Prop :=
  (a < List.length (asset_objs h))%nat.

(** The references of a portfolio point to objects of the store. *)
Definition wf_portfolio (h : Heap) (p : pref) : Prop :=
  (p < List.length (portfolio_objs h))%nat /\
  Forall (valid_asset h) (assets (portfolio_at h p)).

(** The cached total is up to date. *)
Definition cache_ok (h : Heap) (p : pref) : Prop :=
  total_value (portfolio_at h p) == sum_values h (assets (portfolio_at h p)).

(** The asset after [matching_asset.quantity += shares]. *)
Definition bought (x : Asset) (shares : Z) : Asset :=
  mkAsset (symbol x) (market_price x) (quantity x + shares)
          (description x) (classification x).

(** The assets of a list, as values. *)
Definition view (h : Heap) (l : list aref) : list Asset := map (asset_at h) l.

(** The lookup of [get_asset], on a list of references. *)
Definition first_with_symbol (h : Heap) (l : list aref) (s : string)
    : option aref :=
  match filter (fun a => String.eqb (symbol (asset_at h a)) s) l with
  | a :: _ => Some a
  | [] => None
  end.

(** The static part of an asset: what [buy_symbol] never changes. *)
Definition static (x : Asset) : string * Q * option AssetClassification :=
  (symbol x, market_price x, classification x).

(** The assets counted for a class. *)
Definition class_bucket (h : Heap) (p : pref)
    (c : option AssetClassification) : list aref :=
  filter (fun a => classification_eqb (classification (asset_at h a)) c)
         (assets (portfolio_at h p)).

(** What the loop asks of a holding: a class, and a positive price in
    whole cents, as [Asset.__init__] rounds it. *)
Definition priced_static (x : string * Q * option AssetClassification)
    : Prop :=
  snd x <> None /\ 0 < snd (fst x) /\ snd (fst x) == py_round (snd (fst x)) 2.

Definition priced (x : Asset) : Prop := priced_static (static x).

(** [get_value] on the asset as a value. *)
Definition value_of (x : Asset) : Q := inject_Z (quantity x) * market_price x.

(** [tracks h st T m p]: in the store [h] the portfolio [p] is well formed,
    its cache is up to date, its assets have the static parts [st], and its
    total is [T] plus [m] cents. *)
Definition tracks (h : Heap)
    (st : list (string * Q * option AssetClassification)) (T : Q) (m : Z)
    (p : pref) : Prop :=
  wf_portfolio h p /\ cache_ok h p /\
  map static (view h (assets (portfolio_at h p))) = st /\
  total_value (portfolio_at h p) == T + (m # 100).

(** The symbols of a list of static parts. *)
Definition symbols_of (st : list (string * Q * option AssetClassification))
    : list string :=
  map (fun x => fst (fst x)) st.

(** Every candidate recorded is tracked, above the working portfolio. *)
Definition dict_inv (h : Heap)
    (st : list (string * Q * option AssetClassification)) (T : Q) (mw : Z)
    (d : dict) : Prop :=
  forall k q, dict_get k d = Some q ->
    exists m, (mw < m)%Z /\ tracks h st T m q.

(** The symbols [rebalance_portfolio] goes through. *)
Definition symbol_list_of (x : pref * Heap) : list string :=
  map (fun a => symbol (asset_at (snd x) a))
      (assets (portfolio_at (snd x) (fst x))).

(** The candidates after the [for] loop of one turn. *)
Definition candidates_of (x : pref * Heap) : outcome dict * Heap :=
  for_each (symbol_list_of x) (explore_symbol (fst x)) [] (snd x).

(** Tactics for the conditions of the theorems on a store that is given. *)
Ltac concrete_wf :=
  split; [vm_compute; lia | repeat constructor; vm_compute; lia].

Ltac concrete_priced :=
  repeat constructor; try discriminate; vm_compute; reflexivity.

(** The members of [AssetClassification]. *)
Definition all_classes : list AssetClassification :=
  [STOCKS_USA_SMALL_CAP; STOCKS_USA_SP500; STOCKS_EMERGING_MARKET;
   STOCKS_INTERNATIONAL; BONDS_CORP; BONDS_EMERGING_MARKET; REAL_ESTATE].

(** The symbols [_get_classification] knows. *)
Definition known_symbols : list string :=
  ["VNQ"; "VWO"; "VCIT"; "VTWO"; "VXUS"; "VOO"; "VWOB"]%string.

(** The same holding, with as many shares or more. *)
Definition asset_le (x y : Asset) : Prop :=
  symbol x = symbol y /\ market_price x = market_price y /\
  description x = description y /\ classification x = classification y /\
  (quantity x <= quantity y)%Z.

(** [descends na np V0 h q]: the portfolio [q] and its assets are objects
    created after the store had [np] portfolios and [na] assets, and its
    holdings are those of [V0], in the same order, with as many shares or
    more. *)
Definition descends (na np : nat) (V0 : list Asset) (h : Heap) (q : pref)
    : Prop :=
  (np <= q)%nat /\ wf_portfolio h q /\
  Forall (fun a => (na <= a)%nat) (assets (portfolio_at h q)) /\
  Forall2 asset_le V0 (view h (assets (portfolio_at h q))).

(** Every candidate recorded descends from the starting holdings. *)
Definition dict_descends (na np : nat) (V0 : list Asset) (h : Heap)
    (d : dict) : Prop :=
  forall k q, dict_get k d = Some q -> descends na np V0 h q.

(** The [Asset] that [generate_portfolio] makes of one record. *)
Definition record_asset (r : string * Q * Z * string) : Asset :=
  let '(s, price, qty, descr) := r in Asset_init s price qty descr.

(** ** Example stores *)

Local Open Scope string_scope.

(** The spec's two holdings. *)
Definition two_holdings : pref * Heap :=
  generate_portfolio [("VOO", 100, 10%Z, ""); ("VCIT", 50, 10%Z, "")]
                     empty_heap.

(** A Vanguard fund the classification does not know, next to one it
    knows. *)
Definition with_unclassified : pref * Heap :=
  generate_portfolio [("VOO", 100, 10%Z, ""); ("VTI", 50, 10%Z, "")]
                     empty_heap.

(** Seven holdings, each class within a ten-thousandth of its target. *)
Definition near_target : pref * Heap :=
  generate_portfolio
    [("VTWO", 1, 1000%Z, ""); ("VOO", 1, 4001%Z, ""); ("VWO", 1, 500%Z, "");
     ("VXUS", 1, 2499%Z, ""); ("VCIT", 1, 1000%Z, ""); ("VWOB", 1, 500%Z, "");
     ("VNQ", 1, 500%Z, "")]
    empty_heap.

(** Twelve holdings: eleven rows that [Asset.__init__] turns into [VCIT],
    and one of [VOO]. *)
Definition twelve_holdings : pref * Heap :=
  generate_portfolio
    [("VCIT", 100, 29%Z, ""); ("vcit", 100, 1%Z, ""); ("Vcit", 100, 1%Z, "");
     ("vCit", 100, 1%Z, ""); ("vcIt", 100, 1%Z, ""); ("vciT", 100, 1%Z, "");
     ("VCit", 100, 1%Z, ""); ("VcIt", 100, 1%Z, ""); ("VciT", 100, 1%Z, "");
     ("vCIt", 100, 1%Z, ""); ("vCiT", 100, 1%Z, ""); ("VOO", 100, 1%Z, "")]
    empty_heap.

(** Two holdings, one of them sold short. *)
Definition short_position : pref * Heap :=
  generate_portfolio [("VOO", 100, 10%Z, ""); ("VCIT", 50, (-18)%Z, "")]
                     empty_heap.

(** The store once [VOO] has been explored: its candidate is recorded
    under ["0.5"]. *)
Definition after_voo : outcome dict * Heap :=
  explore_symbol (fst two_holdings) "VOO" [] (snd two_holdings).

(** A run with 120 to invest from the spec's two holdings. *)
Definition after_run : outcome pref * Heap :=
  rebalance 10 120 (fst two_holdings) (snd two_holdings).

(** A portfolio without holdings. *)
Definition no_holdings : pref * Heap := generate_portfolio [] empty_heap.

(** A holding whose price is zero. *)
Definition free_holding : pref * Heap :=
  generate_portfolio [("VOO", 0, 10%Z, "")] empty_heap.

(** A portfolio of [VOO], a second one with [VCIT] besides, and their
    difference, which holds the [VCIT] object of the second. *)
Definition with_difference : pref * Heap :=
  let (p0, h0) := generate_portfolio [("VOO", 100, 10%Z, "")] empty_heap in
  let (p1, h1) :=
    generate_portfolio [("VOO", 100, 10%Z, ""); ("VCIT", 50, 10%Z, "")] h0 in
  get_difference_portfolio p0 p1 h1.

Local Close Scope string_scope.

(** * Properties *)

(** ** Lists updated in place *)

Lemma length_update_nth {A : Type} (n : nat) (x : A) (l : list A) :
  List.length (update_nth n x l) = List.length l.
Proof.
  revert n; induction l as [|y r IH]; intros [|n]; simpl; auto.
Qed.

Lemma nth_update_nth_eq {A : Type} (n : nat) (x d : A) (l : list A) :
  (n < List.length l)%nat -> nth n (update_nth n x l) d = x.
Proof.
  revert n; induction l as [|y r IH]; intros [|n] H; simpl in *;
    try lia; auto.
  apply IH; lia.
Qed.

Lemma nth_update_nth_neq {A : Type} (n m : nat) (x d : A) (l : list A) :
  n <> m -> nth m (update_nth n x l) d = nth m l d.
Proof.
  revert n m; induction l as [|y r IH]; intros [|n] [|m] H; simpl;
    try congruence; auto.
Qed.

Lemma update_nth_app_r {A : Type} (n : nat) (x : A) (l s : list A) :
  (List.length l <= n)%nat ->
  update_nth n x (l ++ s) = l ++ update_nth (n - List.length l) x s.
Proof.
  revert n; induction l as [|y r IH]; intros n H; simpl in *.
  - now rewrite Nat.sub_0_r.
  - destruct n as [|n]; [lia|]. simpl. f_equal. apply IH. lia.
Qed.

(** ** The store only grows *)

Lemma extends_refl h : extends h h.
Proof. split; exists []; now rewrite app_nil_r. Qed.

Lemma extends_trans h1 h2 h3 : extends h1 h2 -> extends h2 h3 -> extends h1 h3.
Proof.
  intros [[sa Ha] [sp Hp]] [[sa' Ha'] [sp' Hp']]. split.
  - exists (sa ++ sa'). now rewrite Ha', Ha, app_assoc.
  - exists (sp ++ sp'). now rewrite Hp', Hp, app_assoc.
Qed.

Lemma extends_length_assets h h' :
  extends h h' -> (List.length (asset_objs h) <= List.length (asset_objs h'))%nat.
Proof. intros [[sa Ha] _]. rewrite Ha, length_app. lia. Qed.

Lemma extends_length_portfolios h h' :
  extends h h' ->
  (List.length (portfolio_objs h) <= List.length (portfolio_objs h'))%nat.
Proof. intros [_ [sp Hp]]. rewrite Hp, length_app. lia. Qed.

Lemma extends_asset_at h h' a :
  extends h h' -> (a < List.length (asset_objs h))%nat ->
  asset_at h' a = asset_at h a.
Proof.
  intros [[sa Ha] _] H. unfold asset_at. rewrite Ha. now apply app_nth1.
Qed.

Lemma extends_portfolio_at h h' p :
  extends h h' -> (p < List.length (portfolio_objs h))%nat ->
  portfolio_at h' p = portfolio_at h p.
Proof.
  intros [_ [sp Hp]] H. unfold portfolio_at. rewrite Hp. now apply app_nth1.
Qed.

Lemma extends_set_asset h0 h a x :
  extends h0 h -> (List.length (asset_objs h0) <= a)%nat ->
  extends h0 (set_asset a x h).
Proof.
  intros [[sa Ha] Hp] H. split; [|exact Hp]. simpl.
  rewrite Ha, update_nth_app_r by exact H. eauto.
Qed.

Lemma extends_set_portfolio h0 h p x :
  extends h0 h -> (List.length (portfolio_objs h0) <= p)%nat ->
  extends h0 (set_portfolio p x h).
Proof.
  intros [Ha [sp Hp]] H. split; [exact Ha|]. simpl.
  rewrite Hp, update_nth_app_r by exact H. eauto.
Qed.

Lemma extends_alloc_asset h x : extends h (snd (alloc_asset x h)).
Proof. split; simpl; eauto. exists []. now rewrite app_nil_r. Qed.

Lemma extends_alloc_portfolio h x : extends h (snd (alloc_portfolio x h)).
Proof. split; simpl; eauto. exists []. now rewrite app_nil_r. Qed.

Lemma extends_update_total_value h0 h p :
  extends h0 h -> (List.length (portfolio_objs h0) <= p)%nat ->
  extends h0 (update_total_value p h).
Proof. intros. unfold update_total_value. now apply extends_set_portfolio. Qed.

(** ** Deep copies are made of new objects *)

Lemma memo_get_cons a b b' memo :
  memo_get a ((b, b') :: memo) = if Nat.eqb b a then Some b' else memo_get a memo.
Proof. unfold memo_get. simpl. now destruct (Nat.eqb b a). Qed.

Lemma deepcopy_assets_fresh l : forall memo h r memo' h' n,
  deepcopy_assets l memo h = (r, memo', h') ->
  (n <= List.length (asset_objs h))%nat ->
  (forall a a', memo_get a memo = Some a' -> (n <= a')%nat) ->
  extends h h' /\ Forall (fun a => (n <= a)%nat) r /\
  (forall a a', memo_get a memo' = Some a' -> (n <= a')%nat) /\
  portfolio_objs h' = portfolio_objs h.
Proof.
  induction l as [|a l IH]; intros memo h r memo' h' n E Hn Hm; simpl in E.
  - inversion E; subst. repeat split; auto using extends_refl;
      try (exists []; now rewrite app_nil_r).
  - destruct (memo_get a memo) as [a'|] eqn:G.
    + destruct (deepcopy_assets l memo h) as [[r1 m1] h1] eqn:E1.
      inversion E; subst.
      destruct (IH _ _ _ _ _ n E1 Hn Hm) as (X & F & Hm' & P).
      repeat split; auto; try apply X. constructor; eauto.
    + destruct (deepcopy_assets l _ _) as [[r1 m1] h1] eqn:E1.
      inversion E; subst.
      apply (IH _ _ _ _ _ n) in E1.
      * destruct E1 as (X & F & Hm' & P). repeat split; auto.
        -- destruct X as [[sa Ha] _]. simpl in Ha.
           exists ([asset_at h a] ++ sa). now rewrite Ha, <- app_assoc.
        -- rewrite P. simpl. exists []. now rewrite app_nil_r.
      * simpl. rewrite length_app. lia.
      * intros b b'. rewrite memo_get_cons.
        destruct (Nat.eqb a b); [|now apply Hm].
        intros [= <-]. exact Hn.
Qed.

Lemma deepcopy_list_fresh l h r h' :
  deepcopy_list l h = (r, h') ->
  extends h h' /\
  Forall (fun a => (List.length (asset_objs h) <= a)%nat) r /\
  portfolio_objs h' = portfolio_objs h.
Proof.
  unfold deepcopy_list. intros E.
  destruct (deepcopy_assets l [] h) as [[r1 m1] h1] eqn:E1.
  inversion E; subst.
  apply (deepcopy_assets_fresh _ _ _ _ _ _ (List.length (asset_objs h))) in E1;
    [tauto | lia | discriminate].
Qed.

(** ** What [PortFolio(...)] and [buy_symbol] touch *)

Lemma portfolio_at_alloc h x :
  portfolio_at (snd (alloc_portfolio x h)) (fst (alloc_portfolio x h)) = x.
Proof.
  unfold portfolio_at. simpl. rewrite app_nth2 by lia.
  now rewrite Nat.sub_diag.
Qed.

Lemma assets_update_total_value h p :
  (p < List.length (portfolio_objs h))%nat ->
  assets (portfolio_at (update_total_value p h) p) = assets (portfolio_at h p).
Proof.
  intros H. unfold update_total_value, portfolio_at at 1. simpl.
  now rewrite nth_update_nth_eq.
Qed.

Lemma PortFolio_init_spec l h p h' :
  PortFolio_init l h = (p, h') ->
  p = List.length (portfolio_objs h) /\
  extends h h' /\ asset_objs h' = asset_objs h /\
  portfolio_at h' p = mkPortFolio l (sum_values h l) /\
  List.length (portfolio_objs h') = S (List.length (portfolio_objs h)).
Proof.
  unfold PortFolio_init. simpl. intros E. inversion E; subst; clear E.
  split; [reflexivity|]. split; [|split; [|split]].
  - apply extends_update_total_value; [|simpl; lia].
    apply (extends_alloc_portfolio h).
  - reflexivity.
  - unfold update_total_value, portfolio_at. simpl.
    rewrite nth_update_nth_eq by (rewrite length_app; simpl; lia).
    rewrite app_nth2 by lia. rewrite Nat.sub_diag. reflexivity.
  - simpl. rewrite length_update_nth, length_app. simpl. lia.
Qed.

Lemma get_asset_In h p s a :
  get_asset h p s = Some a ->
  In a (assets (portfolio_at h p)) /\ symbol (asset_at h a) = s.
Proof.
  unfold get_asset.
  destruct (filter _ _) as [|b r] eqn:F; [discriminate|].
  intros [= ->].
  assert (I : In a (a :: r)) by (left; reflexivity).
  rewrite <- F in I. apply filter_In in I. destruct I as [I E].
  split; [exact I|]. now apply String.eqb_eq.
Qed.

Lemma get_asset_None h p s :
  get_asset h p s = None <->
  (forall a, In a (assets (portfolio_at h p)) -> symbol (asset_at h a) <> s).
Proof.
  unfold get_asset. split.
  - destruct (filter _ _) as [|b r] eqn:F; [|discriminate].
    intros _ a I E.
    assert (J : In a []); [|destruct J].
    rewrite <- F. apply filter_In. split; [exact I|]. now apply String.eqb_eq.
  - intros H. destruct (filter _ _) as [|b r] eqn:F; [reflexivity|].
    assert (I : In b (b :: r)) by (left; reflexivity).
    rewrite <- F in I. apply filter_In in I. destruct I as [I E].
    apply String.eqb_eq in E. now apply H in I.
Qed.

(** [buy_symbol] changes objects of the portfolio it is called on only. *)
Lemma buy_symbol_extends h0 h p s n r h' :
  extends h0 h ->
  (List.length (portfolio_objs h0) <= p)%nat ->
  Forall (fun a => (List.length (asset_objs h0) <= a)%nat)
         (assets (portfolio_at h p)) ->
  buy_symbol p s n h = (r, h') ->
  extends h0 h'.
Proof.
  intros X Hp Ha. unfold buy_symbol.
  destruct (get_asset h p s) as [a|] eqn:G; intros E; inversion E; subst.
  - apply extends_update_total_value; [|exact Hp].
    apply extends_set_asset; [exact X|].
    apply get_asset_In in G. destruct G as [I _].
    rewrite Forall_forall in Ha. now apply Ha.
  - exact X.
Qed.

Lemma buy_symbol_assets p s n h r h' :
  (p < List.length (portfolio_objs h))%nat ->
  buy_symbol p s n h = (r, h') ->
  assets (portfolio_at h' p) = assets (portfolio_at h p) /\
  List.length (portfolio_objs h') = List.length (portfolio_objs h) /\
  List.length (asset_objs h') = List.length (asset_objs h).
Proof.
  intros Hp. unfold buy_symbol.
  destruct (get_asset h p s) as [a|]; intros E; inversion E; subst; auto.
  split; [|split].
  - rewrite assets_update_total_value; [reflexivity|]. exact Hp.
  - unfold update_total_value. simpl. now rewrite length_update_nth.
  - simpl. now rewrite length_update_nth.
Qed.

(** ** The exploration of one symbol, step by step *)

Lemma explore_symbol_eq w s d h :
  explore_symbol w s d h =
  let (new_assets, h1) := deepcopy_list (assets (portfolio_at h w)) h in
  let (np, h2) := PortFolio_init new_assets h1 in
  match buy_symbol np s 1 h2 with
  | (Return _, h3) =>
      match get_difference_from_target h3 np with
      | Return difference =>
          let diff_key := str_float difference in
          match dict_get diff_key d with
          | Some _ =>
              match buy_symbol np s 1 h3 with
              | (Return _, h4) => (Return (dict_set diff_key np d), h4)
              | (Raise e, h4) => (Raise e, h4)
              | (OutOfFuel, h4) => (OutOfFuel, h4)
              end
          | None => (Return (dict_set diff_key np d), h3)
          end
      | Raise e => (Raise e, h3)
      | OutOfFuel => (OutOfFuel, h3)
      end
  | (Raise e, h3) => (Raise e, h3)
  | (OutOfFuel, h3) => (OutOfFuel, h3)
  end.
Proof.
  unfold explore_symbol, bind, making, reading, ret.
  destruct (deepcopy_list _ h) as [new_assets h1].
  destruct (PortFolio_init new_assets h1) as [np h2].
  destruct (buy_symbol np s 1 h2) as [[u| |] h3]; try reflexivity.
  destruct (get_difference_from_target h3 np); try reflexivity.
  destruct (dict_get _ d); reflexivity.
Qed.

Lemma explore_symbol_extends h0 w s d h r h' :
  extends h0 h -> explore_symbol w s d h = (r, h') -> extends h0 h'.
Proof.
  intros X. rewrite explore_symbol_eq.
  destruct (deepcopy_list _ h) as [new_assets h1] eqn:D.
  apply deepcopy_list_fresh in D. destruct D as (X1 & F1 & P1).
  destruct (PortFolio_init new_assets h1) as [np h2] eqn:I.
  apply PortFolio_init_spec in I. destruct I as (-> & X2 & A2 & Q2 & L2).
  assert (L0 : (List.length (portfolio_objs h0)
                <= List.length (portfolio_objs h1))%nat).
  { rewrite P1. now apply extends_length_portfolios. }
  assert (F2 : Forall (fun a => (List.length (asset_objs h0) <= a)%nat)
                 new_assets).
  { apply extends_length_assets in X. eapply Forall_impl; [|exact F1].
    simpl. intros; lia. }
  assert (X02 : extends h0 h2) by eauto using extends_trans.
  assert (V2 : (List.length (portfolio_objs h1)
                < List.length (portfolio_objs h2))%nat) by lia.
  destruct (buy_symbol _ s 1 h2) as [[u| |] h3] eqn:B1;
    try (intros [= <- <-]; eapply buy_symbol_extends;
         [exact X02 | exact L0 | rewrite Q2; exact F2 | exact B1]).
  assert (X03 : extends h0 h3).
  { eapply buy_symbol_extends;
      [exact X02 | exact L0 | rewrite Q2; exact F2 | exact B1]. }
  apply buy_symbol_assets in B1; [|exact V2]. destruct B1 as (A3 & L3 & _).
  destruct (get_difference_from_target h3 _) as [difference| |];
    try (intros [= <- <-]; exact X03).
  cbv zeta.
  destruct (dict_get (str_float difference) d);
    try (intros [= <- <-]; exact X03).
  destruct (buy_symbol _ s 1 h3) as [[u'| |] h4] eqn:B2;
    intros [= <- <-]; (eapply buy_symbol_extends;
      [exact X03 | exact L0 | rewrite A3, Q2; exact F2 | exact B2]).
Qed.

(** ** The allocator works on new objects only *)

Lemma for_each_extends {A B : Type} h0 (body : A -> B -> M B) :
  (forall x acc h r h',
      extends h0 h -> body x acc h = (r, h') -> extends h0 h') ->
  forall l acc h r h',
    extends h0 h -> for_each l body acc h = (r, h') -> extends h0 h'.
Proof.
  intros Hb l. induction l as [|x l IH]; intros acc h r h' X; simpl.
  - unfold ret. now intros [= <- <-].
  - unfold bind. destruct (body x acc h) as [[b| |] h1] eqn:E;
      try (intros [= <- <-]; eapply Hb; eauto).
    apply IH. eapply Hb; eauto.
Qed.

Lemma choose_candidate_extends h0 w symbol_list h r h' :
  extends h0 h -> choose_candidate w symbol_list h = (r, h') -> extends h0 h'.
Proof.
  intros X. unfold choose_candidate, bind.
  destruct (for_each _ _ _ h) as [[d| |] h1] eqn:E;
    try (intros [= <- <-]);
    try (eapply for_each_extends; [|exact X|exact E];
         intros; eapply explore_symbol_extends; eauto).
  assert (X1 : extends h0 h1).
  { eapply for_each_extends; [|exact X|exact E].
    intros; eapply explore_symbol_extends; eauto. }
  destruct (min_str _) as [k|]; [|unfold raise; now intros [= <- <-]].
  destruct (dict_get k d); unfold ret, raise; now intros [= <- <-].
Qed.

Lemma rebalance_loop_extends h0 fuel : forall cash w prev symbol_list h r h',
  extends h0 h ->
  rebalance_loop fuel cash w prev symbol_list h = (r, h') -> extends h0 h'.
Proof.
  induction fuel as [|fuel IH]; intros cash w prev symbol_list h r h' X; simpl.
  - destruct (Qle_bool cash 0); unfold ret; now intros [= <- <-].
  - destruct (Qle_bool cash 0); [unfold ret; now intros [= <- <-]|].
    unfold bind at 1.
    destruct (choose_candidate _ _ h) as [[nw| |] h1] eqn:E;
      try (intros [= <- <-]; eapply choose_candidate_extends; eauto).
    unfold bind, reading. apply IH.
    eapply choose_candidate_extends; eauto.
Qed.

Lemma deepcopy_portfolio_extends p h q h' :
  deepcopy_portfolio p h = (q, h') -> extends h h'.
Proof.
  unfold deepcopy_portfolio.
  destruct (deepcopy_list _ h) as [l h1] eqn:D.
  apply deepcopy_list_fresh in D. destruct D as (X & _ & _).
  intros [= <- <-]. eapply extends_trans; [exact X|].
  apply (extends_alloc_portfolio h1).
Qed.

Lemma rebalance_extends fuel cash portfolio h r h' :
  rebalance fuel cash portfolio h = (r, h') -> extends h h'.
Proof.
  unfold rebalance, bind, making, reading.
  destruct (deepcopy_portfolio portfolio h) as [w h1] eqn:D.
  apply deepcopy_portfolio_extends in D.
  apply rebalance_loop_extends. exact D.
Qed.

(** C9. Running the allocator leaves every object of the store it was
    started in as it was, the starting portfolio and its assets among them:
    the store after the run is the store before it, followed by the objects
    created during the run. This holds for every fuel, budget and starting
    portfolio, and also when the run ends in an exception. *)
Theorem rebalance_leaves_the_start_untouched :
  forall fuel cash portfolio h,
    exists created_assets created_portfolios,
      asset_objs (snd (rebalance fuel cash portfolio h))
        = asset_objs h ++ created_assets /\
      portfolio_objs (snd (rebalance fuel cash portfolio h))
        = portfolio_objs h ++ created_portfolios.
Proof.
  intros fuel cash portfolio h.
  destruct (rebalance fuel cash portfolio h) as [r h'] eqn:E.
  apply rebalance_extends in E. destruct E as [[sa Ha] [sp Hp]].
  exists sa, sp. simpl. split; assumption.
Qed.

(** ** Sums of values *)

Lemma fold_left_Qplus_acc l : forall acc,
  fold_left Qplus l acc == acc + py_sum l.
Proof.
  unfold py_sum. induction l as [|x l IH]; intros acc; simpl.
  - ring.
  - rewrite (IH (acc + x)), (IH (0 + x)). ring.
Qed.

Lemma py_sum_cons x l : py_sum (x :: l) == x + py_sum l.
Proof. unfold py_sum at 1. simpl. rewrite fold_left_Qplus_acc. ring. Qed.

Lemma sum_values_cons h a l :
  sum_values h (a :: l) == get_value h a + sum_values h l.
Proof. unfold sum_values. simpl. apply py_sum_cons. Qed.

(** When the value of one asset object moves by [delta] and the others
    stay, a sum moves by [delta] for each place the object has in the
    list. *)
Lemma sum_values_change h h' a delta l :
  (forall b, b <> a -> get_value h' b == get_value h b) ->
  get_value h' a == get_value h a + delta ->
  sum_values h' l ==
  sum_values h l + inject_Z (Z.of_nat (count_occ Nat.eq_dec l a)) * delta.
Proof.
  intros Ho Ha. induction l as [|b l IH].
  - unfold sum_values, py_sum. simpl. ring.
  - rewrite !sum_values_cons, IH. simpl count_occ.
    destruct (Nat.eq_dec b a) as [->|N].
    + rewrite Ha, Nat2Z.inj_succ. unfold Z.succ. rewrite inject_Z_plus. ring.
    + rewrite (Ho b N). ring.
Qed.

(** ** Reading the store after a write *)

Lemma asset_at_set_asset_eq h a x :
  valid_asset h a -> asset_at (set_asset a x h) a = x.
Proof. intros V. unfold asset_at. simpl. now apply nth_update_nth_eq. Qed.

Lemma asset_at_set_asset_neq h a b x :
  a <> b -> asset_at (set_asset a x h) b = asset_at h b.
Proof. intros N. unfold asset_at. simpl. now apply nth_update_nth_neq. Qed.

Lemma asset_at_update_total_value h p a :
  asset_at (update_total_value p h) a = asset_at h a.
Proof. reflexivity. Qed.

Lemma get_value_update_total_value h p a :
  get_value (update_total_value p h) a = get_value h a.
Proof. reflexivity. Qed.

Lemma sum_values_update_total_value h p l :
  sum_values (update_total_value p h) l = sum_values h l.
Proof. reflexivity. Qed.

Lemma portfolio_at_update_total_value h p :
  (p < List.length (portfolio_objs h))%nat ->
  portfolio_at (update_total_value p h) p =
  mkPortFolio (assets (portfolio_at h p))
              (sum_values h (assets (portfolio_at h p))).
Proof.
  intros V. unfold update_total_value, portfolio_at at 1. simpl.
  now rewrite nth_update_nth_eq.
Qed.

Lemma portfolio_at_update_total_value_neq h p q :
  p <> q -> portfolio_at (update_total_value p h) q = portfolio_at h q.
Proof.
  intros N. unfold update_total_value, portfolio_at at 1. simpl.
  now rewrite nth_update_nth_neq.
Qed.

(** A successful [buy_symbol], spelled out. *)
Lemma buy_symbol_found h p s n a :
  get_asset h p s = Some a ->
  buy_symbol p s n h =
  (Return tt, update_total_value p (set_asset a (bought (asset_at h a) n) h)).
Proof. unfold buy_symbol. now intros ->. Qed.

Lemma buy_symbol_not_found h p s n :
  get_asset h p s = None ->
  buy_symbol p s n h = (Raise (RuntimeError ("No owned shares: " ++ s)), h).
Proof. unfold buy_symbol. now intros ->. Qed.

Lemma get_asset_exists h p s b :
  In b (assets (portfolio_at h p)) -> symbol (asset_at h b) = s ->
  exists a, get_asset h p s = Some a.
Proof.
  intros I E. destruct (get_asset h p s) as [a|] eqn:G; [eauto|].
  exfalso. rewrite get_asset_None in G. exact (G b I E).
Qed.

(** C5. [buy_symbol] raises exactly when no asset of the portfolio has the
    symbol, and then the store is as it was; when an asset has the symbol,
    the call returns, the first such asset has [shares] more in [quantity],
    the list of assets is the same and [total_value] is the sum of the values
    as they are after the purchase. *)
Theorem buy_symbol_raises_iff_not_held :
  forall h self s shares,
    wf_portfolio h self ->
    ((exists e, fst (buy_symbol self s shares h) = Raise e) <->
     (forall a, In a (assets (portfolio_at h self)) ->
                symbol (asset_at h a) <> s)) /\
    (forall e, fst (buy_symbol self s shares h) = Raise e ->
               snd (buy_symbol self s shares h) = h) /\
    ((exists b, In b (assets (portfolio_at h self)) /\
                symbol (asset_at h b) = s) ->
     exists a,
       get_asset h self s = Some a /\
       fst (buy_symbol self s shares h) = Return tt /\
       let h' := snd (buy_symbol self s shares h) in
       quantity (asset_at h' a) = (quantity (asset_at h a) + shares)%Z /\
       assets (portfolio_at h' self) = assets (portfolio_at h self) /\
       total_value (portfolio_at h' self)
         = sum_values h' (assets (portfolio_at h' self))).
Proof.
  intros h self s shares [Vp Va]. split; [|split].
  - rewrite <- get_asset_None. unfold buy_symbol.
    destruct (get_asset h self s) as [a|]; simpl; split.
    + intros [e E]. discriminate.
    + discriminate.
    + reflexivity.
    + eauto.
  - intros e. unfold buy_symbol.
    destruct (get_asset h self s) as [a|]; simpl; [discriminate|reflexivity].
  - intros (b & I & E). destruct (get_asset_exists _ _ _ _ I E) as [a G].
    exists a. split; [exact G|]. rewrite (buy_symbol_found _ _ _ _ _ G).
    simpl fst. simpl snd. split; [reflexivity|]. cbv zeta.
    apply get_asset_In in G. destruct G as [Ia _].
    rewrite Forall_forall in Va. specialize (Va a Ia).
    set (h1 := set_asset a (bought (asset_at h a) shares) h).
    assert (Vp1 : (self < List.length (portfolio_objs h1))%nat) by exact Vp.
    rewrite asset_at_update_total_value.
    rewrite (portfolio_at_update_total_value h1 self Vp1). simpl.
    split; [|split; reflexivity].
    unfold h1. rewrite asset_at_set_asset_eq by exact Va. reflexivity.
Qed.

Lemma get_value_bought h a n :
  valid_asset h a ->
  get_value (set_asset a (bought (asset_at h a) n) h) a ==
  get_value h a + inject_Z n * market_price (asset_at h a).
Proof.
  intros V. unfold get_value. rewrite asset_at_set_asset_eq by exact V.
  simpl. rewrite inject_Z_plus. ring.
Qed.

Lemma get_value_not_bought h a b x :
  b <> a -> get_value (set_asset a x h) b = get_value h b.
Proof.
  intros N. unfold get_value. rewrite asset_at_set_asset_neq by congruence.
  reflexivity.
Qed.

(** C6. On a portfolio whose asset objects are pairwise distinct and whose
    cached total is up to date, a successful [buy_symbol] of [shares] shares
    raises [total_value] by [shares] times the market price of the asset
    bought, and every other asset object of the store is as it was, and so is
    its value. *)
Theorem buy_symbol_adds_shares_times_price :
  forall h self s shares a,
    wf_portfolio h self ->
    NoDup (assets (portfolio_at h self)) ->
    cache_ok h self ->
    get_asset h self s = Some a ->
    let h' := snd (buy_symbol self s shares h) in
    fst (buy_symbol self s shares h) = Return tt /\
    total_value (portfolio_at h' self) ==
      total_value (portfolio_at h self)
      + inject_Z shares * market_price (asset_at h a) /\
    market_price (asset_at h' a) = market_price (asset_at h a) /\
    (forall b, b <> a ->
       asset_at h' b = asset_at h b /\ get_value h' b = get_value h b).
Proof.
  intros h self s shares a [Vp Va] ND C G.
  rewrite (buy_symbol_found _ _ _ _ _ G). simpl fst. simpl snd. cbv zeta.
  apply get_asset_In in G. destruct G as [Ia _].
  rewrite Forall_forall in Va. pose proof (Va a Ia) as V.
  set (h1 := set_asset a (bought (asset_at h a) shares) h).
  assert (Vp1 : (self < List.length (portfolio_objs h1))%nat) by exact Vp.
  split; [reflexivity|]. split; [|split].
  - rewrite (portfolio_at_update_total_value h1 self Vp1). simpl.
    change (portfolio_at h1 self) with (portfolio_at h self).
    rewrite (sum_values_change h h1 a
               (inject_Z shares * market_price (asset_at h a))).
    + rewrite (proj1 (NoDup_count_occ' Nat.eq_dec _) ND a Ia).
      unfold cache_ok in C. rewrite C. simpl Z.of_nat. ring.
    + intros b N. unfold h1. now rewrite get_value_not_bought.
    + apply get_value_bought. exact V.
  - rewrite asset_at_update_total_value. unfold h1.
    rewrite asset_at_set_asset_eq by exact V. reflexivity.
  - intros b N. rewrite asset_at_update_total_value,
      get_value_update_total_value. unfold h1.
    rewrite get_value_not_bought by exact N.
    rewrite asset_at_set_asset_neq by congruence. split; reflexivity.
Qed.

(** ** A deep copy holds the same values *)

Lemma view_extends h h' l :
  extends h h' -> Forall (valid_asset h) l -> view h' l = view h l.
Proof.
  intros X F. unfold view. apply map_ext_in. intros a I.
  rewrite Forall_forall in F. apply extends_asset_at; [exact X|].
  now apply F.
Qed.

Lemma valid_asset_extends h h' a :
  extends h h' -> valid_asset h a -> valid_asset h' a.
Proof.
  intros X V. apply extends_length_assets in X. unfold valid_asset in *. lia.
Qed.

Lemma deepcopy_assets_view l : forall memo h r memo' h',
  deepcopy_assets l memo h = (r, memo', h') ->
  Forall (valid_asset h) l ->
  (forall a a', memo_get a memo = Some a' ->
     valid_asset h a /\ valid_asset h a' /\ asset_at h a' = asset_at h a) ->
  view h' r = view h l /\ Forall (valid_asset h') r.
Proof.
  induction l as [|a l IH]; intros memo h r memo' h' E F Hm; simpl in E.
  - inversion E; subst. split; [reflexivity|constructor].
  - inversion F as [|? ? Va Fl]; subst.
    destruct (memo_get a memo) as [a'|] eqn:G.
    + destruct (deepcopy_assets l memo h) as [[r1 m1] h1] eqn:E1.
      inversion E; subst.
      pose proof (deepcopy_assets_fresh _ _ _ _ _ _ O E1 (Nat.le_0_l _)
                    (fun _ _ _ => Nat.le_0_l _)) as (X & _).
      destruct (IH _ _ _ _ _ E1 Fl Hm) as (W & V).
      destruct (Hm _ _ G) as (_ & Va' & Ea').
      split.
      * unfold view in *. simpl. rewrite W. f_equal.
        rewrite (extends_asset_at _ _ _ X Va'). exact Ea'.
      * constructor; [eapply valid_asset_extends; eauto | exact V].
    + destruct (deepcopy_assets l _ _) as [[r1 m1] h1] eqn:E1.
      inversion E; subst.
      set (h0 := mkHeap (asset_objs h ++ [asset_at h a]) (portfolio_objs h))
        in *.
      assert (X0 : extends h h0) by apply (extends_alloc_asset h).
      assert (Vn : valid_asset h0 (List.length (asset_objs h))).
      { unfold valid_asset, h0. simpl. rewrite length_app. simpl. lia. }
      assert (En : asset_at h0 (List.length (asset_objs h)) = asset_at h a).
      { unfold asset_at at 1, h0. simpl. rewrite app_nth2 by lia.
        now rewrite Nat.sub_diag. }
      pose proof (deepcopy_assets_fresh _ _ _ _ _ _ O E1 (Nat.le_0_l _)
                    (fun _ _ _ => Nat.le_0_l _)) as (X & _).
      destruct (IH _ _ _ _ _ E1) as (W & V).
      * eapply Forall_impl; [|exact Fl]. intros b.
        now apply valid_asset_extends.
      * intros b b'. rewrite memo_get_cons.
        destruct (Nat.eqb a b) eqn:Eb.
        -- apply Nat.eqb_eq in Eb. subst b. intros [= <-].
           split; [eapply valid_asset_extends; eauto|]. split; [exact Vn|].
           rewrite En. symmetry. now apply extends_asset_at.
        -- intros Gb. destruct (Hm _ _ Gb) as (Vb & Vb' & Eb').
           split; [eapply valid_asset_extends; eauto|].
           split; [eapply valid_asset_extends; eauto|].
           rewrite !(extends_asset_at h h0) by assumption. exact Eb'.
      * split.
        -- unfold view in *. simpl. rewrite W. f_equal.
           ++ rewrite (extends_asset_at _ _ _ X Vn). exact En.
           ++ apply map_ext_in. intros b I. rewrite Forall_forall in Fl.
              apply extends_asset_at; [exact X0|]. now apply Fl.
        -- constructor; [eapply valid_asset_extends; eauto | exact V].
Qed.

Lemma deepcopy_list_view l h r h' :
  deepcopy_list l h = (r, h') ->
  Forall (valid_asset h) l ->
  view h' r = view h l /\ Forall (valid_asset h') r.
Proof.
  unfold deepcopy_list. intros E F.
  destruct (deepcopy_assets l [] h) as [[r1 m1] h1] eqn:E1.
  inversion E; subst.
  eapply deepcopy_assets_view; [exact E1 | exact F | discriminate].
Qed.

(** ** Looking an asset up by symbol *)

Lemma get_asset_unfold h p s :
  get_asset h p s = first_with_symbol h (assets (portfolio_at h p)) s.
Proof. reflexivity. Qed.

Lemma first_with_symbol_cons h a l s :
  first_with_symbol h (a :: l) s =
  if String.eqb (symbol (asset_at h a)) s then Some a
  else first_with_symbol h l s.
Proof.
  unfold first_with_symbol. simpl.
  now destruct (String.eqb (symbol (asset_at h a)) s).
Qed.

Lemma static_symbol x y : static x = static y -> symbol x = symbol y.
Proof. unfold static. congruence. Qed.

Lemma first_with_symbol_view h h' s : forall l l' a,
  map static (view h' l') = map static (view h l) ->
  first_with_symbol h l s = Some a ->
  exists a',
    first_with_symbol h' l' s = Some a' /\ In a' l' /\
    exists i, nth_error l i = Some a /\ nth_error l' i = Some a'.
Proof.
  induction l as [|b l IH]; intros [|b' l'] a E F; simpl in E;
    try discriminate.
  inversion E as [[Eb Ep Ec El]].
  rewrite first_with_symbol_cons in *.
  rewrite Eb. destruct (String.eqb (symbol (asset_at h b)) s).
  - injection F as <-. exists b'. split; [reflexivity|].
    split; [now left|]. exists O. now split.
  - destruct (IH _ _ El F) as (a' & F' & I & i & N & N').
    exists a'. split; [exact F'|]. split; [now right|].
    exists (S i). now split.
Qed.

Lemma view_nth_error h h' l l' i a a' :
  view h' l' = view h l ->
  nth_error l i = Some a -> nth_error l' i = Some a' ->
  asset_at h' a' = asset_at h a.
Proof.
  unfold view. intros E N N'.
  apply (map_nth_error (asset_at h)) in N.
  apply (map_nth_error (asset_at h')) in N'. congruence.
Qed.

(** ** Upper case *)

Lemma upper_ascii_idem c : upper_ascii (upper_ascii c) = upper_ascii c.
Proof.
  destruct c as [[] [] [] [] [] [] [] []]; reflexivity.
Qed.

Lemma upper_idem s : upper (upper s) = upper s.
Proof.
  induction s as [|c s IH]; simpl; [reflexivity|].
  now rewrite upper_ascii_idem, IH.
Qed.

(** C10. The lookup compares the stored symbol with the argument as it is.
    In a portfolio whose assets carry the upper-cased symbol that
    [Asset.__init__] stores, and which holds an asset built from [S], a
    spelling [q] of [S] that is not upper case ([q.upper() == S.upper()] and
    [q != S.upper()]) is not found: [get_asset] gives [None] and
    [buy_symbol] raises, leaving the store as it is. The upper-case spelling
    is found and bought. *)
Theorem lookup_is_case_sensitive :
  forall h p S price qty descr a q shares,
    (forall b, In b (assets (portfolio_at h p)) ->
               exists raw, symbol (asset_at h b) = upper raw) ->
    In a (assets (portfolio_at h p)) ->
    asset_at h a = Asset_init S price qty descr ->
    upper q = upper S ->
    q <> upper S ->
    get_asset h p q = None /\
    buy_symbol p q shares h
      = (Raise (RuntimeError ("No owned shares: " ++ q)), h) /\
    (exists a', get_asset h p (upper S) = Some a') /\
    fst (buy_symbol p (upper S) shares h) = Return tt.
Proof.
  intros h p S price qty descr a q shares Hup Ia Ea Eq Nq.
  assert (G : get_asset h p q = None).
  { apply get_asset_None. intros b Ib Eb.
    destruct (Hup b Ib) as [raw Er]. apply Nq.
    rewrite <- Eq, <- Eb, Er. now rewrite upper_idem. }
  split; [exact G|]. split; [now apply buy_symbol_not_found|].
  destruct (get_asset_exists h p (upper S) a Ia) as [a' G'].
  { rewrite Ea. reflexivity. }
  split; [eauto|]. now rewrite (buy_symbol_found _ _ _ _ _ G').
Qed.

(** ** Buying leaves the static part of every asset alone *)

Lemma static_bought x n : static (bought x n) = static x.
Proof. reflexivity. Qed.

Lemma static_after_buy h a n b :
  static (asset_at (set_asset a (bought (asset_at h a) n) h) b)
  = static (asset_at h b).
Proof.
  destruct (Nat.eq_dec a b) as [<-|N].
  - destruct (Nat.lt_ge_cases a (List.length (asset_objs h))) as [V|V].
    + rewrite asset_at_set_asset_eq by exact V. apply static_bought.
    + unfold asset_at. simpl.
      rewrite !nth_overflow; [reflexivity | exact V |].
      now rewrite length_update_nth.
  - now rewrite asset_at_set_asset_neq.
Qed.

Lemma first_with_symbol_static h h' l s :
  (forall b, static (asset_at h' b) = static (asset_at h b)) ->
  first_with_symbol h' l s = first_with_symbol h l s.
Proof.
  intros E. unfold first_with_symbol.
  rewrite (filter_ext _ (fun a => String.eqb (symbol (asset_at h a)) s));
    [reflexivity|].
  intros b. now rewrite (static_symbol _ _ (E b)).
Qed.

(** After a successful purchase the same asset is found again. *)
Lemma buy_symbol_found_again h p s n a :
  (p < List.length (portfolio_objs h))%nat ->
  get_asset h p s = Some a ->
  get_asset (snd (buy_symbol p s n h)) p s = Some a.
Proof.
  intros V G. rewrite (buy_symbol_found _ _ _ _ _ G). simpl snd.
  rewrite get_asset_unfold in *.
  rewrite portfolio_at_update_total_value by exact V. simpl assets.
  change (portfolio_at (set_asset a (bought (asset_at h a) n) h) p)
    with (portfolio_at h p).
  rewrite <- G. apply first_with_symbol_static.
  intros b. rewrite asset_at_update_total_value. apply static_after_buy.
Qed.

Lemma buy_symbol_quantity h p s n a :
  valid_asset h a ->
  get_asset h p s = Some a ->
  asset_at (snd (buy_symbol p s n h)) a = bought (asset_at h a) n.
Proof.
  intros V G. rewrite (buy_symbol_found _ _ _ _ _ G). simpl snd.
  rewrite asset_at_update_total_value. now apply asset_at_set_asset_eq.
Qed.

Lemma buy_symbol_valid h p s n a :
  valid_asset h a -> valid_asset (snd (buy_symbol p s n h)) a.
Proof.
  unfold buy_symbol, valid_asset.
  destruct (get_asset h p s); simpl; [|auto].
  now rewrite length_update_nth.
Qed.

(** ** The dictionary *)

Lemma dict_get_set k k' v d :
  dict_get k' (dict_set k v d) =
  if String.eqb k k' then Some v else dict_get k' d.
Proof.
  induction d as [|[k0 v0] d IH]; simpl.
  - reflexivity.
  - destruct (String.eqb k0 k) eqn:E0; simpl.
    + apply String.eqb_eq in E0. subst k0.
      now destruct (String.eqb k k').
    + rewrite IH. destruct (String.eqb k0 k') eqn:E1; [|reflexivity].
      apply String.eqb_eq in E1. subst k0.
      rewrite String.eqb_sym in E0. now rewrite E0.
Qed.

Lemma dict_keys_set_present k v d e :
  dict_get k d = Some e -> dict_keys (dict_set k v d) = dict_keys d.
Proof.
  unfold dict_keys. induction d as [|[k0 v0] d IH]; simpl; [discriminate|].
  destruct (String.eqb k0 k); simpl; [reflexivity|].
  intros G. now rewrite IH.
Qed.

(** ** The copy explored for one symbol *)

(** The working portfolio copied, with its first asset of symbol [s]. *)
Lemma copy_has_symbol h w s a l' h1 np h2 :
  wf_portfolio h w ->
  get_asset h w s = Some a ->
  deepcopy_list (assets (portfolio_at h w)) h = (l', h1) ->
  PortFolio_init l' h1 = (np, h2) ->
  exists a',
    get_asset h2 np s = Some a' /\ In a' l' /\ valid_asset h2 a' /\
    asset_at h2 a' = asset_at h a.
Proof.
  intros [Vw Fw] G D I.
  destruct (deepcopy_list_view _ _ _ _ D Fw) as (W & V).
  apply PortFolio_init_spec in I. destruct I as (-> & X2 & A2 & Q2 & L2).
  assert (E12 : forall b, asset_at h2 b = asset_at h1 b).
  { intros b. unfold asset_at. now rewrite A2. }
  rewrite get_asset_unfold in G.
  destruct (first_with_symbol_view h h1 s (assets (portfolio_at h w)) l' a)
    as (a' & F' & Ia & i & N & N').
  { now rewrite W. }
  { exact G. }
  exists a'. split; [|split; [exact Ia|split]].
  - rewrite get_asset_unfold, Q2. simpl assets. rewrite <- F'.
    apply first_with_symbol_static. intros b. now rewrite E12.
  - rewrite Forall_forall in V. unfold valid_asset. rewrite A2. now apply V.
  - rewrite E12. eapply view_nth_error; eauto.
Qed.

(** C2. When the one-share copy explored for a symbol gets a score whose
    key is in the dictionary already, a second share of the same symbol is
    bought into that copy, which then takes the place of the portfolio
    recorded under the key: the keys are the same, the key gives the new
    copy, which is another object than the one recorded before, and the
    asset of that symbol has two shares more than in the working
    portfolio. *)
Theorem tie_overwrites_and_buys_a_second_share :
  forall h w s d a difference earlier,
    wf_portfolio h w ->
    get_asset h w s = Some a ->
    let c := deepcopy_list (assets (portfolio_at h w)) h in
    let new_portfolio := fst (PortFolio_init (fst c) (snd c)) in
    let h3 := snd (buy_symbol new_portfolio s 1
                     (snd (PortFolio_init (fst c) (snd c)))) in
    get_difference_from_target h3 new_portfolio = Return difference ->
    dict_get (str_float difference) d = Some earlier ->
    (earlier < List.length (portfolio_objs h))%nat ->
    let h4 := snd (buy_symbol new_portfolio s 1 h3) in
    let d' := dict_set (str_float difference) new_portfolio d in
    explore_symbol w s d h = (Return d', h4) /\
    dict_get (str_float difference) d' = Some new_portfolio /\
    dict_keys d' = dict_keys d /\
    new_portfolio <> earlier /\
    exists a',
      get_asset h4 new_portfolio s = Some a' /\
      asset_at h4 a' = bought (asset_at h a) 2.
Proof.
  intros h w s d a difference earlier Wf G c new_portfolio h3.
  subst c new_portfolio h3. cbv zeta.
  destruct (deepcopy_list _ h) as [l' h1] eqn:D. cbn [fst snd].
  remember (PortFolio_init l' h1) as i eqn:I. symmetry in I.
  destruct i as [np h2]. cbn [fst snd].
  intros Df Dg Ve.
  destruct (copy_has_symbol _ _ _ _ _ _ _ _ Wf G D I)
    as (a' & G2 & Ia & V2 & E2).
  pose proof (deepcopy_list_fresh _ _ _ _ D) as (X1 & _ & P1).
  pose proof (PortFolio_init_spec _ _ _ _ I) as (Enp & X2 & A2 & Q2 & L2).
  assert (Vnp : (np < List.length (portfolio_objs h2))%nat) by lia.
  pose proof (buy_symbol_found_again h2 np s 1 a' Vnp G2) as G3.
  pose proof (buy_symbol_quantity h2 np s 1 a' V2 G2) as Q3.
  pose proof (buy_symbol_valid h2 np s 1 a' V2) as V3.
  set (h3 := snd (buy_symbol np s 1 h2)) in *.
  assert (Vnp3 : (np < List.length (portfolio_objs h3))%nat).
  { unfold h3. rewrite (buy_symbol_found _ _ _ _ _ G2). simpl.
    now rewrite length_update_nth. }
  pose proof (buy_symbol_found_again h3 np s 1 a' Vnp3 G3) as G4.
  pose proof (buy_symbol_quantity h3 np s 1 a' V3 G3) as Q4.
  split; [|split; [|split; [|split]]].
  - rewrite explore_symbol_eq, D, I.
    rewrite (surjective_pairing (buy_symbol np s 1 h2)).
    rewrite (buy_symbol_found _ _ _ _ _ G2) at 1. simpl fst.
    fold h3. rewrite Df. cbv zeta. rewrite Dg.
    rewrite (surjective_pairing (buy_symbol np s 1 h3)).
    rewrite (buy_symbol_found _ _ _ _ _ G3) at 1. simpl fst. reflexivity.
  - rewrite dict_get_set. now rewrite String.eqb_refl.
  - eapply dict_keys_set_present; eauto.
  - rewrite Enp, P1. lia.
  - exists a'. split; [exact G4|]. rewrite Q4, Q3, E2.
    unfold bought. simpl. f_equal. lia.
Qed.

(** ** Rounding *)

Lemma Qfloor_bounds x : inject_Z (Qfloor x) <= x /\ x < inject_Z (Qfloor x) + 1.
Proof.
  split; [apply Qfloor_le|].
  pose proof (Qlt_floor x) as H. rewrite inject_Z_plus in H. exact H.
Qed.

Lemma Qfloor_nonneg x : 0 <= x -> (0 <= Qfloor x)%Z.
Proof.
  intros H. change 0%Z with (Qfloor 0). now apply Qfloor_resp_le.
Qed.

Lemma round_half_even_nonneg x : 0 <= x -> (0 <= round_half_even x)%Z.
Proof.
  intros H. pose proof (Qfloor_nonneg x H) as F. unfold round_half_even.
  destruct (Qcompare _ _); [destruct (Z.even _)| |]; lia.
Qed.

Lemma round_half_even_zero_iff x :
  0 <= x -> (round_half_even x = 0%Z <-> x <= 1 # 2).
Proof.
  intros H. pose proof (Qfloor_nonneg x H) as F.
  destruct (Qfloor_bounds x) as [L U]. unfold round_half_even.
  destruct (Qcompare (x - inject_Z (Qfloor x)) (1 # 2)) eqn:C.
  - apply Qeq_alt in C.
    assert (Z0 : x <= 1 # 2 -> Qfloor x = 0%Z).
    { intros Hx. destruct (Z.eq_dec (Qfloor x) 0) as [?|N]; [assumption|].
      assert (I : (1 <= Qfloor x)%Z) by lia.
      rewrite Zle_Qle in I. change (inject_Z 1) with 1 in I. lra. }
    destruct (Z.even (Qfloor x)) eqn:Ev; split.
    + intros E. rewrite E in C. change (inject_Z 0) with 0 in C. lra.
    + exact Z0.
    + intros E. lia.
    + intros Hx. apply Z0 in Hx. rewrite Hx in Ev. discriminate.
  - apply Qlt_alt in C. split.
    + intros E. rewrite E in C. change (inject_Z 0) with 0 in C. lra.
    + intros Hx.
      destruct (Z.eq_dec (Qfloor x) 0) as [?|N]; [assumption|].
      assert (I : (1 <= Qfloor x)%Z) by lia.
      rewrite Zle_Qle in I. change (inject_Z 1) with 1 in I. lra.
  - apply Qgt_alt in C. split.
    + intros E. lia.
    + intros Hx. exfalso.
      rewrite Zle_Qle in F. change (inject_Z 0) with 0 in F. lra.
Qed.

Lemma py_round_3_nonneg x : 0 <= x -> 0 <= py_round x 3.
Proof.
  intros H. unfold py_round.
  assert (S : 0 <= x * inject_Z (10 ^ Z.of_nat 3)).
  { change (inject_Z (10 ^ Z.of_nat 3)) with 1000. lra. }
  apply round_half_even_nonneg in S. cbv zeta.
  set (n := round_half_even _) in *.
  unfold Qle. cbn [Qnum Qden]. lia.
Qed.

Lemma py_round_3_zero_iff x :
  0 <= x -> (py_round x 3 == 0 <-> x <= 1 # 2000).
Proof.
  intros H. unfold py_round.
  change (inject_Z (10 ^ Z.of_nat 3)) with 1000.
  assert (S : 0 <= x * 1000) by lra.
  pose proof (round_half_even_zero_iff _ S) as R.
  split.
  - intros E. unfold Qeq in E. cbn [Qnum Qden] in E.
    assert (Z0 : round_half_even (x * 1000) = 0%Z) by lia.
    apply R in Z0. lra.
  - intros Hx. assert (Hx' : x * 1000 <= 1 # 2) by lra.
    apply R in Hx'. rewrite Hx'. reflexivity.
Qed.

(** ** The deviation score *)

Lemma get_percent_classification_eq h p c :
  get_percent_classification h p c =
  if Qeq_bool (total_value (portfolio_at h p)) 0 then Raise ZeroDivisionError
  else Return (sum_values h (class_bucket h p c)
               / total_value (portfolio_at h p)).
Proof. reflexivity. Qed.

Lemma Qeq_bool_false_of_neq x y : ~ x == y -> Qeq_bool x y = false.
Proof.
  intros N. destruct (Qeq_bool x y) eqn:E; [|reflexivity].
  apply Qeq_bool_iff in E. contradiction.
Qed.

Lemma get_percentage_target_Some c :
  exists t, get_percentage_target (Some c) = Return t /\ 0 < t /\ t <= 4 # 10.
Proof.
  destruct c; simpl; eexists; (split; [reflexivity|]);
    unfold PercentageTargets.STOCKS_USA_SMALL_CAP,
      PercentageTargets.STOCKS_USA_SP500,
      PercentageTargets.STOCKS_EMERGING_MARKET,
      PercentageTargets.STOCKS_INTERNATIONAL, PercentageTargets.BONDS_CORP,
      PercentageTargets.BONDS_EMERGING_MARKET, PercentageTargets.REAL_ESTATE;
    lra.
Qed.

(** With a total that is not zero and every asset classified, the loop
    returns; the score only grows and covers each asset's deviation. *)
Lemma difference_loop_ok h p :
  Qeq_bool (total_value (portfolio_at h p)) 0 = false ->
  forall l acc,
    (forall a, In a l -> classification (asset_at h a) <> None) ->
    exists d,
      difference_loop h p l acc = Return d /\ acc <= d /\
      (forall a, In a l ->
         exists pc t,
           get_percent_classification h p (classification (asset_at h a))
             = Return pc /\
           get_percentage_target (classification (asset_at h a)) = Return t /\
           acc + Qabs (pc - t) <= d) /\
      ((forall a pc t, In a l ->
          get_percent_classification h p (classification (asset_at h a))
            = Return pc ->
          get_percentage_target (classification (asset_at h a)) = Return t ->
          pc == t) ->
       d == acc).
Proof.
  intros T l. induction l as [|a l IH]; intros acc Hc.
  - exists acc. simpl. split; [reflexivity|]. split; [lra|].
    split; [intros ? []|]. intros _. reflexivity.
  - cbn [difference_loop].
    destruct (classification (asset_at h a)) as [c|] eqn:Ec;
      [|exfalso; apply (Hc a); [now left|exact Ec]].
    rewrite get_percent_classification_eq, T.
    destruct (get_percentage_target_Some c) as (t & Et & _). rewrite Et.
    set (pc := sum_values h (class_bucket h p (Some c))
               / total_value (portfolio_at h p)).
    destruct (IH (acc + Qabs (pc - t))) as (d & Ed & Ld & Hd & Zd).
    { intros b Ib. apply Hc. now right. }
    pose proof (Qabs_nonneg (pc - t)) as N.
    exists d. split; [exact Ed|]. split; [lra|]. split.
    + intros b [<-|Ib].
      * exists pc, t. rewrite Ec, get_percent_classification_eq, T.
        split; [reflexivity|]. split; [exact Et|exact Ld].
      * destruct (Hd b Ib) as (pc' & t' & P' & T' & L').
        exists pc', t'. split; [exact P'|]. split; [exact T'|].
        lra.
    + intros Hz. rewrite Zd.
      * assert (E : pc == t).
        { apply (Hz a); [now left| |].
          - rewrite Ec, get_percent_classification_eq, T. reflexivity.
          - rewrite Ec. exact Et. }
        rewrite E. setoid_replace (t - t) with 0 by ring.
        change (Qabs 0) with 0. ring.
      * intros b pc' t' Ib. apply Hz. now right.
Qed.

(** With an asset that has no class the loop stops on an exception. *)
Lemma difference_loop_unclassified h p l : forall acc,
  l <> [] ->
  (Qeq_bool (total_value (portfolio_at h p)) 0 = true \/
   exists a, In a l /\ classification (asset_at h a) = None) ->
  difference_loop h p l acc =
  Raise (if Qeq_bool (total_value (portfolio_at h p)) 0
         then ZeroDivisionError else RuntimeError no_target_message).
Proof.
  induction l as [|a l IH]; intros acc Nl H; [congruence|].
  cbn [difference_loop]. rewrite get_percent_classification_eq.
  destruct (Qeq_bool (total_value (portfolio_at h p)) 0) eqn:T;
    [reflexivity|].
  destruct H as [H|(b & Ib & Eb)]; [discriminate|].
  destruct (classification (asset_at h a)) as [c|] eqn:Ec;
    [|reflexivity].
  destruct (get_percentage_target_Some c) as (t & Et & _). rewrite Et.
  destruct Ib as [<-|Ib]; [congruence|].
  apply IH; [intros ->; destruct Ib|]. right. eauto.
Qed.

(** ** An asset without a class, and a score that rounds to zero *)

(** C4, as stated, fails: with a holding of [VTI], which has no class, the
    deviation score is not computed, [get_percentage_target] raises. *)
Lemma unclassified_asset_raises :
  (exists a, In a (assets (portfolio_at (snd with_unclassified)
                                        (fst with_unclassified))) /\
             classification (asset_at (snd with_unclassified) a) = None) /\
  get_difference_from_target (snd with_unclassified) (fst with_unclassified)
  = Raise (RuntimeError no_target_message).
Proof.
  split; [|reflexivity]. exists 1%nat. split; [|reflexivity].
  right. left. reflexivity.
Qed.

(** C4, amended. For a portfolio with an asset that has no class, the
    deviation score is not computed: [get_difference_from_target] raises the
    [RuntimeError] of [get_percentage_target], or [ZeroDivisionError] when
    the total is zero. The percentage of each of the seven classes is
    computed when the total is not zero; it divides by the total of the
    portfolio and sums a bucket in which no unclassified asset is. *)
Theorem unclassified_asset_stops_the_score :
  forall h p,
    (exists a, In a (assets (portfolio_at h p)) /\
               classification (asset_at h a) = None) ->
    get_difference_from_target h p =
      Raise (if Qeq_bool (total_value (portfolio_at h p)) 0
             then ZeroDivisionError else RuntimeError no_target_message) /\
    (forall c,
       get_percent_classification h p (Some c) =
       if Qeq_bool (total_value (portfolio_at h p)) 0
       then Raise ZeroDivisionError
       else Return (sum_values h (class_bucket h p (Some c))
                    / total_value (portfolio_at h p))) /\
    (forall c a, classification (asset_at h a) = None ->
                 ~ In a (class_bucket h p (Some c))).
Proof.
  intros h p (a & Ia & Ea). split; [|split].
  - unfold get_difference_from_target.
    rewrite difference_loop_unclassified; [reflexivity| |right; eauto].
    intros E. rewrite E in Ia. destruct Ia.
  - intros c. apply get_percent_classification_eq.
  - intros c b Eb I. unfold class_bucket in I. apply filter_In in I.
    destruct I as [_ I]. rewrite Eb in I. discriminate.
Qed.

(** C7, as stated, fails: a portfolio whose score is [0.0] although the
    share of the S&P 500 class, [0.4001], is not its target [0.40]; the sum of
    the deviations, [0.0002], rounds to zero. *)
Lemma zero_score_off_target :
  0 < total_value (portfolio_at (snd near_target) (fst near_target)) /\
  (forall a, In a (assets (portfolio_at (snd near_target) (fst near_target)))
             -> classification (asset_at (snd near_target) a) <> None) /\
  (exists q, get_difference_from_target (snd near_target) (fst near_target)
             = Return q /\ q == 0) /\
  (exists pc, get_percent_classification (snd near_target) (fst near_target)
                (Some STOCKS_USA_SP500) = Return pc /\
              pc == 4001 # 10000 /\
              ~ pc == PercentageTargets.STOCKS_USA_SP500).
Proof.
  split; [reflexivity|]. split; [|split].
  - intros a I. simpl in I.
    repeat (destruct I as [<-|I]; [discriminate|]). destruct I.
  - eexists. split; [vm_compute; reflexivity|reflexivity].
  - eexists. split; [vm_compute; reflexivity|].
    split; [reflexivity|]. intros E. discriminate E.
Qed.

(** C7, amended. With a positive total and every asset classified, the
    deviation score is computed and is not negative; it is zero exactly when
    the sum of the deviations is at most [0.0005], so that a zero score puts
    every represented class within [0.0005] of its target; equal percentages
    and targets give zero. *)
Theorem deviation_score_nonneg_zero_up_to_rounding :
  forall h p,
    0 < total_value (portfolio_at h p) ->
    (forall a, In a (assets (portfolio_at h p)) ->
               classification (asset_at h a) <> None) ->
    exists d q,
      difference_loop h p (assets (portfolio_at h p)) 0 = Return d /\
      get_difference_from_target h p = Return q /\
      q = py_round d 3 /\
      0 <= q /\
      (q == 0 <-> d <= 1 # 2000) /\
      (forall a, In a (assets (portfolio_at h p)) ->
         exists pc t,
           get_percent_classification h p (classification (asset_at h a))
             = Return pc /\
           get_percentage_target (classification (asset_at h a)) = Return t /\
           Qabs (pc - t) <= d) /\
      ((forall a pc t, In a (assets (portfolio_at h p)) ->
          get_percent_classification h p (classification (asset_at h a))
            = Return pc ->
          get_percentage_target (classification (asset_at h a)) = Return t ->
          pc == t) ->
       q == 0).
Proof.
  intros h p T Hc.
  assert (T0 : Qeq_bool (total_value (portfolio_at h p)) 0 = false).
  { apply Qeq_bool_false_of_neq. lra. }
  destruct (difference_loop_ok h p T0 _ 0 Hc) as (d & Ed & Ld & Hd & Zd).
  exists d, (py_round d 3). unfold get_difference_from_target. rewrite Ed.
  split; [reflexivity|]. split; [reflexivity|]. split; [reflexivity|].
  split; [now apply py_round_3_nonneg|].
  split; [now apply py_round_3_zero_iff|]. split.
  - intros a Ia. destruct (Hd a Ia) as (pc & t & P & Tg & L).
    exists pc, t. split; [exact P|]. split; [exact Tg|]. lra.
  - intros Hz. apply py_round_3_zero_iff; [exact Ld|].
    rewrite (Zd Hz). lra.
Qed.

(** ** Prices in cents *)

Lemma round_half_even_comp x y : x == y -> round_half_even x = round_half_even y.
Proof.
  intros E. unfold round_half_even. rewrite (Qfloor_comp _ _ E).
  assert (C : Qcompare (x - inject_Z (Qfloor y)) (1 # 2)
              = Qcompare (y - inject_Z (Qfloor y)) (1 # 2)).
  { apply Qcompare_comp; [now rewrite E | reflexivity]. }
  now rewrite C.
Qed.

Lemma round_half_even_inject z : round_half_even (inject_Z z) = z.
Proof.
  unfold round_half_even. rewrite Qfloor_Z.
  assert (C : Qcompare (inject_Z z - inject_Z z) (1 # 2) = Lt).
  { apply Qlt_alt. setoid_replace (inject_Z z - inject_Z z) with 0 by ring.
    reflexivity. }
  now rewrite C.
Qed.

(** An amount of [m] cents is its own rounding to two digits. *)
Lemma py_round_2_cents x m : x == m # 100 -> py_round x 2 == m # 100.
Proof.
  intros E. unfold py_round.
  change (10 ^ Z.of_nat 2)%Z with 100%Z. change (Z.to_pos 100) with 100%positive.
  rewrite (round_half_even_comp _ (inject_Z m)).
  - now rewrite round_half_even_inject.
  - rewrite E. unfold Qeq. simpl. lia.
Qed.

Lemma priced_cents x :
  priced x -> exists z, (1 <= z)%Z /\ market_price x == z # 100.
Proof.
  intros (_ & P & R). unfold static in *. simpl in *.
  exists (round_half_even (market_price x * inject_Z (10 ^ Z.of_nat 2))).
  split; [|exact R].
  rewrite R in P. unfold py_round in P. cbv zeta in P.
  set (z := round_half_even _) in *. unfold Qlt in P. simpl in P. lia.
Qed.

(** ** Values of a list of assets, from its view *)

Lemma sum_values_view h l : sum_values h l = py_sum (map value_of (view h l)).
Proof. unfold sum_values, view. now rewrite map_map. Qed.

Lemma sum_values_same_view h h' l l' :
  view h' l' = view h l -> sum_values h' l' = sum_values h l.
Proof. intros E. now rewrite !sum_values_view, E. Qed.

Lemma view_same_objs h h' l : asset_objs h' = asset_objs h -> view h' l = view h l.
Proof. intros E. unfold view, asset_at. now rewrite E. Qed.

(** ** Portfolios that follow the starting one *)

Lemma tracks_extends h h' st T m p :
  extends h h' -> tracks h st T m p -> tracks h' st T m p.
Proof.
  intros X ((Vp & Va) & C & S & E).
  pose proof (extends_portfolio_at _ _ _ X Vp) as Ep.
  pose proof (view_extends _ _ _ X Va) as Ev.
  unfold tracks, wf_portfolio, cache_ok. rewrite Ep.
  split; [split|split; [|split]].
  - apply extends_length_portfolios in X. lia.
  - eapply Forall_impl; [|exact Va]. intros a. now apply valid_asset_extends.
  - rewrite (sum_values_same_view h h' _ _ Ev). exact C.
  - now rewrite Ev.
  - exact E.
Qed.

Lemma tracks_symbols h st T m p :
  tracks h st T m p ->
  map (fun a => symbol (asset_at h a)) (assets (portfolio_at h p))
  = symbols_of st.
Proof.
  intros (_ & _ & S & _). unfold symbols_of. rewrite <- S.
  unfold view. now rewrite !map_map.
Qed.

Lemma tracks_priced h st T m p a :
  tracks h st T m p -> Forall priced_static st ->
  In a (assets (portfolio_at h p)) -> priced (asset_at h a).
Proof.
  intros (_ & _ & S & _) F I. rewrite Forall_forall in F. apply F.
  rewrite <- S. unfold view. rewrite map_map.
  apply (in_map (fun a => static (asset_at h a))). exact I.
Qed.

Lemma tracks_has_symbol h st T m p s :
  tracks h st T m p -> In s (symbols_of st) ->
  exists a, get_asset h p s = Some a.
Proof.
  intros Tr I. rewrite <- (tracks_symbols _ _ _ _ _ Tr) in I.
  apply in_map_iff in I. destruct I as (b & Eb & Ib).
  eapply get_asset_exists; eauto.
Qed.

(** ** Lists of keys and of references *)

Lemma count_occ_In_pos (l : list nat) a :
  In a l -> (1 <= Z.of_nat (count_occ Nat.eq_dec l a))%Z.
Proof. intros I. apply (count_occ_In Nat.eq_dec) in I. lia. Qed.

Lemma dict_set_not_nil k v d : dict_set k v d <> [].
Proof.
  destruct d as [|[k0 v0] d]; simpl; [discriminate|].
  destruct (String.eqb k0 k); discriminate.
Qed.

Lemma fold_min_In (r : list string) : forall x,
  In (fold_left (fun m y => if String.ltb y m then y else m) r x) (x :: r).
Proof.
  induction r as [|y r IH]; intros x; simpl; [now left|].
  destruct (IH (if String.ltb y x then y else x)) as [E|I].
  - destruct (String.ltb y x); rewrite <- E; auto.
  - right. now right.
Qed.

Lemma min_str_In l k : min_str l = Some k -> In k l.
Proof.
  destruct l as [|x r]; simpl; [discriminate|].
  intros [= <-]. apply fold_min_In.
Qed.

Lemma dict_get_keys k d :
  In k (dict_keys d) -> exists v, dict_get k d = Some v.
Proof.
  unfold dict_keys. induction d as [|[k0 v0] d IH]; simpl; [intros []|].
  intros [E|I].
  - subst k0. rewrite String.eqb_refl. eauto.
  - destruct (String.eqb k0 k); eauto.
Qed.

Lemma cents_diff_round T m mw x y :
  x == T + (m # 100) -> y == T + (mw # 100) ->
  py_round (x - y) 2 == (m - mw) # 100.
Proof.
  intros Ex Ey. apply py_round_2_cents. rewrite Ex, Ey.
  assert (A : (m - mw) # 100 == (m # 100) - (mw # 100)).
  { unfold Qeq, Qminus, Qplus, Qopp. cbn [Qnum Qden]. lia. }
  rewrite A. ring.
Qed.

(** ** One turn of the loop, and the loop

    The static parts [st] of the holdings and the starting total [T] are
    fixed for a run: every holding has a class and a positive price in whole
    cents, and the starting total is positive. *)

Section Tracked.

Variable st : list (string * Q * option AssetClassification).
Variable T : Q.
Hypothesis st_priced : Forall priced_static st.
Hypothesis T_pos : 0 < T.

(** One share bought into a tracked portfolio: it is tracked still, some
    cents higher. *)
Lemma buy_symbol_tracks h m p s a :
  tracks h st T m p ->
  get_asset h p s = Some a ->
  exists m',
    (m < m')%Z /\
    buy_symbol p s 1 h = (Return tt, snd (buy_symbol p s 1 h)) /\
    tracks (snd (buy_symbol p s 1 h)) st T m' p.
Proof.
  intros Tr G.
  pose proof Tr as ((Vp & Va) & C & S & E).
  pose proof (get_asset_In _ _ _ _ G) as [Ia _].
  pose proof (tracks_priced _ _ _ _ _ _ Tr st_priced Ia) as Pa.
  destruct (priced_cents _ Pa) as (z & Hz & Ez).
  assert (V : valid_asset h a).
  { rewrite Forall_forall in Va. now apply Va. }
  rewrite (buy_symbol_found _ _ _ _ _ G). cbn [snd].
  set (h1 := set_asset a (bought (asset_at h a) 1) h).
  set (k := Z.of_nat (count_occ Nat.eq_dec (assets (portfolio_at h p)) a)).
  assert (Hk : (1 <= k)%Z) by (apply count_occ_In_pos; exact Ia).
  exists (m + k * z)%Z. split; [nia|]. split; [reflexivity|].
  assert (Vp1 : (p < List.length (portfolio_objs h1))%nat) by exact Vp.
  unfold tracks, wf_portfolio, cache_ok.
  rewrite (portfolio_at_update_total_value h1 p Vp1). cbn [assets total_value].
  change (portfolio_at h1 p) with (portfolio_at h p).
  split; [split|split; [|split]].
  - unfold update_total_value. simpl. now rewrite length_update_nth.
  - eapply Forall_impl; [|exact Va]. intros b Vb.
    unfold valid_asset, update_total_value, h1. simpl.
    now rewrite length_update_nth.
  - reflexivity.
  - rewrite <- S. unfold view. rewrite !map_map. apply map_ext.
    intros b. rewrite asset_at_update_total_value. apply static_after_buy.
  - rewrite (sum_values_change h h1 a (inject_Z 1 * market_price (asset_at h a))).
    + fold k. unfold cache_ok in C. rewrite <- C, E, Ez.
      assert (A : (m + k * z) # 100 == (m # 100) + inject_Z k * (z # 100)).
      { unfold Qeq, Qplus, Qmult, inject_Z. cbn [Qnum Qden]. nia. }
      rewrite A. change (inject_Z 1) with 1. ring.
    + intros b N. unfold h1. now rewrite get_value_not_bought.
    + apply get_value_bought. exact V.
Qed.

(** The score of a tracked portfolio is computed. *)
Lemma tracks_difference h m p :
  (0 <= m)%Z ->
  tracks h st T m p ->
  exists q, get_difference_from_target h p = Return q.
Proof.
  intros Hm Tr. pose proof Tr as (_ & _ & _ & E).
  destruct (difference_loop_ok h p) with (l := assets (portfolio_at h p))
                                         (acc := 0) as (d & Ed & _).
  - apply Qeq_bool_false_of_neq. rewrite E.
    assert (0 <= m # 100) by (unfold Qle; simpl; lia). lra.
  - intros a Ia. apply (tracks_priced _ _ _ _ _ _ Tr st_priced Ia).
  - unfold get_difference_from_target. rewrite Ed. eauto.
Qed.

(** The copy that [explore_symbol] starts from is tracked as the working
    portfolio is. *)
Lemma fresh_copy_tracks h m w l' h1 np h2 :
  tracks h st T m w ->
  deepcopy_list (assets (portfolio_at h w)) h = (l', h1) ->
  PortFolio_init l' h1 = (np, h2) ->
  tracks h2 st T m np.
Proof.
  intros ((Vp & Va) & C & S & E) D I.
  destruct (deepcopy_list_view _ _ _ _ D Va) as (W & V).
  apply PortFolio_init_spec in I. destruct I as (Enp & X2 & A2 & Q2 & L2).
  pose proof (view_same_objs h1 h2 l' A2) as W2.
  unfold tracks, wf_portfolio, cache_ok. rewrite Q2. cbn [assets total_value].
  split; [split|split; [|split]].
  - lia.
  - eapply Forall_impl; [|exact V]. intros b. unfold valid_asset.
    now rewrite A2.
  - now rewrite (sum_values_same_view h1 h2 l' l' W2).
  - now rewrite W2, W.
  - rewrite (sum_values_same_view h h1 _ _ W). unfold cache_ok in C.
    now rewrite <- C.
Qed.

Lemma dict_inv_extends h h' mw d :
  extends h h' -> dict_inv h st T mw d -> dict_inv h' st T mw d.
Proof.
  intros X Hd k q G. destruct (Hd k q G) as (m & Hm & Tr).
  exists m. split; [exact Hm|]. eapply tracks_extends; eauto.
Qed.

Lemma explore_symbol_spec h mw w s d :
  (0 <= mw)%Z ->
  tracks h st T mw w ->
  In s (symbols_of st) ->
  dict_inv h st T mw d ->
  exists d' h',
    explore_symbol w s d h = (Return d', h') /\
    extends h h' /\ dict_inv h' st T mw d' /\ d' <> [].
Proof.
  intros Hm Tw Is Hd.
  assert (Main : exists np key h' m,
             explore_symbol w s d h = (Return (dict_set key np d), h') /\
             (mw < m)%Z /\ tracks h' st T m np).
  { rewrite explore_symbol_eq.
    destruct (deepcopy_list _ h) as [l' h1] eqn:D.
    remember (PortFolio_init l' h1) as i eqn:I. symmetry in I.
    destruct i as [np h2].
    pose proof (fresh_copy_tracks _ _ _ _ _ _ _ Tw D I) as T2.
    destruct (tracks_has_symbol _ _ _ _ _ _ T2 Is) as (a2 & G2).
    destruct (buy_symbol_tracks _ _ _ _ _ T2 G2) as (m3 & H3 & B3 & T3).
    rewrite B3. set (h3 := snd (buy_symbol np s 1 h2)) in *.
    destruct (tracks_difference h3 m3 np) as (q & Eq);
      [lia | exact T3 |].
    rewrite Eq. cbv zeta.
    destruct (dict_get (str_float q) d) as [e|].
    - destruct (tracks_has_symbol _ _ _ _ _ _ T3 Is) as (a3 & G3).
      destruct (buy_symbol_tracks _ _ _ _ _ T3 G3)
        as (m4 & H4 & B4 & T4).
      rewrite B4. exists np, (str_float q), (snd (buy_symbol np s 1 h3)), m4.
      split; [reflexivity|]. split; [lia|exact T4].
    - exists np, (str_float q), h3, m3.
      split; [reflexivity|]. split; [lia|exact T3]. }
  destruct Main as (np & key & h' & m & E & Hlt & Tn).
  pose proof (explore_symbol_extends h w s d h _ h' (extends_refl h) E) as X.
  exists (dict_set key np d), h'. split; [exact E|]. split; [exact X|].
  split; [|apply dict_set_not_nil].
  intros k q. rewrite dict_get_set. destruct (String.eqb key k).
  - intros [= <-]. eauto.
  - intros G. eapply dict_inv_extends; eauto.
Qed.

Lemma for_each_explore_spec h0 mw w :
  (0 <= mw)%Z ->
  tracks h0 st T mw w ->
  forall l d h,
    (forall s, In s l -> In s (symbols_of st)) ->
    extends h0 h ->
    dict_inv h st T mw d ->
    exists d' h',
      for_each l (explore_symbol w) d h = (Return d', h') /\
      extends h h' /\ dict_inv h' st T mw d' /\
      (l <> [] \/ d <> [] -> d' <> []).
Proof.
  intros Hm Tw l. induction l as [|s l IH]; intros d h Hl X Hd.
  - exists d, h. simpl. unfold ret. split; [reflexivity|].
    split; [apply extends_refl|]. split; [exact Hd|]. intros [N|N]; congruence.
  - destruct (explore_symbol_spec h mw w s d Hm)
      as (d1 & h1 & E1 & X1 & Hd1 & N1).
    { eapply tracks_extends; eauto. }
    { apply Hl. now left. }
    { exact Hd. }
    destruct (IH d1 h1) as (d2 & h2 & E2 & X2 & Hd2 & N2).
    { intros s' I. apply Hl. now right. }
    { eapply extends_trans; eauto. }
    { exact Hd1. }
    exists d2, h2. simpl. unfold bind. rewrite E1.
    split; [exact E2|]. split; [eapply extends_trans; eauto|].
    split; [exact Hd2|]. intros _. apply N2. now right.
Qed.

Lemma choose_candidate_spec h mw w :
  (0 <= mw)%Z ->
  st <> [] ->
  tracks h st T mw w ->
  exists p h' m,
    choose_candidate w (symbols_of st) h = (Return p, h') /\
    extends h h' /\ (mw < m)%Z /\ tracks h' st T m p.
Proof.
  intros Hm Nst Tw.
  destruct (for_each_explore_spec h mw w Hm Tw (symbols_of st) [] h)
    as (d & h' & E & X & Hd & Nd).
  { auto. }
  { apply extends_refl. }
  { intros k q G. discriminate. }
  assert (N : d <> []).
  { apply Nd. left. destruct st; [congruence|discriminate]. }
  unfold choose_candidate, bind. rewrite E.
  destruct (min_str (dict_keys d)) as [k|] eqn:Mk.
  - destruct (dict_get_keys k d (min_str_In _ _ Mk)) as (p & G).
    rewrite G. destruct (Hd k p G) as (m & Hlt & Tp).
    exists p, h', m. unfold ret. auto.
  - destruct d; [congruence|discriminate].
Qed.

Lemma rebalance_loop_spec K (good : Q -> Prop) :
  st <> [] ->
  (forall t, t < K -> good t) ->
  forall fuel cash w prev h mw,
    (0 <= mw)%Z ->
    tracks h st T mw w ->
    cash + T + (mw # 100) == K ->
    (prev < List.length (portfolio_objs h))%nat ->
    good (total_value (portfolio_at h prev)) ->
    cash * 100 <= inject_Z (Z.of_nat fuel) ->
    exists r h',
      rebalance_loop fuel cash w prev (symbols_of st) h = (Return r, h') /\
      extends h h' /\
      (r < List.length (portfolio_objs h'))%nat /\
      good (total_value (portfolio_at h' r)).
Proof.
  intros Nst Hgood fuel.
  induction fuel as [|fuel IH]; intros cash w prev h mw Hm Tw Ek Vp Gp Hf.
  - assert (L : Qle_bool cash 0 = true).
    { apply Qle_bool_iff. change (inject_Z (Z.of_nat 0)) with 0 in Hf. lra. }
    simpl. rewrite L. exists prev, h. unfold ret.
    split; [reflexivity|]. split; [apply extends_refl|]. auto.
  - cbn [rebalance_loop]. destruct (Qle_bool cash 0) eqn:L.
    + exists prev, h. unfold ret.
      split; [reflexivity|]. split; [apply extends_refl|]. auto.
    + assert (Hc : 0 < cash).
      { destruct (Qlt_le_dec 0 cash) as [?|Le]; [assumption|].
        apply Qle_bool_iff in Le. congruence. }
      destruct (choose_candidate_spec h mw w Hm Nst Tw)
        as (p & h1 & m & E & X & Hlt & Tp).
      pose proof (tracks_extends _ _ _ _ _ _ X Tw) as Tw1.
      pose proof Tp as (_ & _ & _ & Etp).
      pose proof Tw1 as ((Vw1 & _) & _ & _ & Etw).
      pose proof (cents_diff_round _ _ _ _ _ Etp Etw) as Ec.
      set (cost := py_round (total_value (portfolio_at h1 p)
                             - total_value (portfolio_at h1 w)) 2) in *.
      assert (Hcost : 1 # 100 <= (m - mw) # 100).
      { unfold Qle. cbn [Qnum Qden]. lia. }
      destruct (IH (cash - cost) p w h1 m) as (r & h2 & E2 & X2 & Vr & Gr).
      * lia.
      * exact Tp.
      * rewrite Ec. rewrite <- Ek.
        assert (A : (m - mw) # 100 == (m # 100) - (mw # 100)).
        { unfold Qeq, Qminus, Qplus, Qopp. cbn [Qnum Qden]. lia. }
        rewrite A. ring.
      * exact Vw1.
      * apply Hgood. rewrite Etw.
        assert (0 < cash) by exact Hc. lra.
      * rewrite Ec. rewrite Nat2Z.inj_succ in Hf. unfold Z.succ in Hf.
        rewrite inject_Z_plus in Hf. change (inject_Z 1) with 1 in Hf. lra.
      * exists r, h2. unfold bind at 1. rewrite E. unfold bind, reading.
        fold cost. split; [exact E2|].
        split; [eapply extends_trans; eauto|]. auto.
Qed.

End Tracked.

(** ** The allocator from its starting portfolio *)

Lemma deepcopy_portfolio_tracks h st T m p w h1 :
  tracks h st T m p ->
  deepcopy_portfolio p h = (w, h1) ->
  tracks h1 st T m w /\ extends h h1.
Proof.
  intros Tp E. pose proof (deepcopy_portfolio_extends _ _ _ _ E) as X.
  split; [|exact X]. destruct Tp as ((Vp & Va) & C & S & Et).
  unfold deepcopy_portfolio in E.
  destruct (deepcopy_list _ h) as [l' h0] eqn:D.
  destruct (deepcopy_list_view _ _ _ _ D Va) as (W & V).
  injection E as <- <-.
  set (x := mkPortFolio l' (total_value (portfolio_at h p))).
  pose proof (portfolio_at_alloc h0 x) as Q. cbn [fst snd alloc_portfolio] in Q.
  unfold tracks, wf_portfolio, cache_ok. rewrite Q. cbn [assets total_value x].
  assert (W1 : view (mkHeap (asset_objs h0) (portfolio_objs h0 ++ [x])) l'
               = view h0 l') by (apply view_same_objs; reflexivity).
  split; [split|split; [|split]].
  - simpl. rewrite length_app. simpl. lia.
  - exact V.
  - rewrite (sum_values_same_view _ _ _ _ W1),
      (sum_values_same_view _ _ _ _ W). exact C.
  - now rewrite W1, W.
  - exact Et.
Qed.

Lemma tracks_start h p :
  wf_portfolio h p -> cache_ok h p ->
  tracks h (map static (view h (assets (portfolio_at h p))))
         (total_value (portfolio_at h p)) 0 p.
Proof.
  intros W C. split; [exact W|]. split; [exact C|]. split; [reflexivity|].
  unfold Qeq, Qplus. cbn [Qnum Qden]. lia.
Qed.

Lemma held_not_nil h p :
  cache_ok h p -> 0 < total_value (portfolio_at h p) ->
  map static (view h (assets (portfolio_at h p))) <> [].
Proof.
  unfold cache_ok. intros C T E.
  destruct (assets (portfolio_at h p)); [|discriminate].
  unfold sum_values, py_sum in C. simpl in C. lra.
Qed.

Lemma priced_view h l :
  Forall priced (view h l) -> Forall priced_static (map static (view h l)).
Proof.
  intros F. apply Forall_forall. intros x I. apply in_map_iff in I.
  destruct I as (y & <- & Iy). rewrite Forall_forall in F. now apply F.
Qed.

Lemma rebalance_spec h p cash fuel (good : Q -> Prop) :
  wf_portfolio h p -> cache_ok h p ->
  Forall priced (view h (assets (portfolio_at h p))) ->
  0 < total_value (portfolio_at h p) ->
  (forall t, t < total_value (portfolio_at h p) + cash -> good t) ->
  (forall t, t == total_value (portfolio_at h p) -> good t) ->
  cash * 100 <= inject_Z (Z.of_nat fuel) ->
  exists r h',
    rebalance fuel cash p h = (Return r, h') /\
    (r < List.length (portfolio_objs h'))%nat /\
    good (total_value (portfolio_at h' r)).
Proof.
  intros W C P HT Hlt Heq Hf.
  pose proof (tracks_start h p W C) as Tp.
  set (st := map static (view h (assets (portfolio_at h p)))) in *.
  set (T := total_value (portfolio_at h p)) in *.
  unfold rebalance, bind, making, reading.
  destruct (deepcopy_portfolio p h) as [w h1] eqn:D.
  destruct (deepcopy_portfolio_tracks _ _ _ _ _ _ _ Tp D) as (Tw & X).
  pose proof (tracks_extends _ _ _ _ _ _ X Tp) as Tp1.
  rewrite (tracks_symbols _ _ _ _ _ Tp1).
  pose proof Tw as ((Vw & _) & _ & _ & Ew).
  destruct (rebalance_loop_spec st T (priced_view _ _ P) HT (T + cash) good
              (held_not_nil _ _ C HT) Hlt fuel cash w w h1 0%Z)
    as (r & h' & E & _ & Vr & Gr).
  - lia.
  - exact Tw.
  - assert (A : 0 # 100 == 0) by reflexivity. rewrite A. ring.
  - exact Vw.
  - apply Heq. rewrite Ew. assert (A : 0 # 100 == 0) by reflexivity.
    rewrite A. ring.
  - exact Hf.
  - exists r, h'. auto.
Qed.


Lemma tracks_priced_view h st T m p :
  tracks h st T m p -> Forall priced_static st ->
  Forall priced (view h (assets (portfolio_at h p))).
Proof.
  intros Tr F. apply Forall_forall. intros x I. unfold view in I.
  apply in_map_iff in I. destruct I as (a & <- & Ia).
  eapply tracks_priced; eauto.
Qed.

(** C8. From a well-formed portfolio with an up-to-date, positive total,
    whose assets are classified and have positive prices in whole cents:
    one turn of the loop chooses a candidate that costs one cent at least
    and that meets the same conditions again, with the same symbols, so that
    cash goes down by a cent or more at every turn; and the allocator
    returns, for every budget, with fuel for one turn per cent of budget. *)
Theorem rebalance_terminates :
  forall h p cash,
    wf_portfolio h p -> cache_ok h p ->
    Forall priced (view h (assets (portfolio_at h p))) ->
    0 < total_value (portfolio_at h p) ->
    (exists w' h',
       choose_candidate p
         (map (fun a => symbol (asset_at h a)) (assets (portfolio_at h p))) h
       = (Return w', h') /\
       1 # 100 <= py_round (total_value (portfolio_at h' w')
                            - total_value (portfolio_at h' p)) 2 /\
       wf_portfolio h' w' /\ cache_ok h' w' /\
       Forall priced (view h' (assets (portfolio_at h' w'))) /\
       0 < total_value (portfolio_at h' w') /\
       map (fun a => symbol (asset_at h' a)) (assets (portfolio_at h' w'))
       = map (fun a => symbol (asset_at h a)) (assets (portfolio_at h p))) /\
    (forall fuel,
       cash * 100 <= inject_Z (Z.of_nat fuel) ->
       exists r h', rebalance fuel cash p h = (Return r, h')) /\
    (exists fuel r h', rebalance fuel cash p h = (Return r, h')).
Proof.
  intros h p cash W C P HT.
  assert (Run : forall fuel,
             cash * 100 <= inject_Z (Z.of_nat fuel) ->
             exists r h', rebalance fuel cash p h = (Return r, h')).
  { intros fuel Hf.
    destruct (rebalance_spec h p cash fuel (fun _ => True))
      as (r & h' & E & _); auto. eauto. }
  split; [|split; [exact Run|]].
  - pose proof (tracks_start h p W C) as Tp.
    pose proof (priced_view _ _ P) as F.
    set (st := map static (view h (assets (portfolio_at h p)))) in *.
    set (T := total_value (portfolio_at h p)) in *.
    destruct (choose_candidate_spec st T F HT h 0 p (Z.le_refl 0))
      as (w' & h' & m & E & X & Hm & Tw'); [now apply held_not_nil|exact Tp|].
    pose proof (tracks_extends _ _ _ _ _ _ X Tp) as Tp'.
    exists w', h'. rewrite (tracks_symbols _ _ _ _ _ Tp).
    split; [exact E|].
    pose proof Tw' as (Ww & Cw & _ & Ew). pose proof Tp' as (_ & _ & _ & Ep).
    split; [|split; [exact Ww|split; [exact Cw|split; [|split]]]].
    + rewrite (cents_diff_round _ _ _ _ _ Ew Ep).
      unfold Qle. cbn [Qnum Qden]. lia.
    + eapply tracks_priced_view; eauto.
    + rewrite Ew. assert (0 < m # 100) by (unfold Qlt; cbn [Qnum Qden]; lia).
      lra.
    + apply (tracks_symbols _ _ _ _ _ Tw').
  - exists (Z.to_nat (Qceiling (cash * 100))).
    apply Run. destruct (Z.le_gt_cases 0 (Qceiling (cash * 100))) as [L|L].
    + rewrite Z2Nat.id by exact L. apply Qle_ceiling.
    + apply Qle_trans with (inject_Z (Qceiling (cash * 100)));
        [apply Qle_ceiling|]. rewrite <- Zle_Qle. lia.
Qed.

(** ** The minimum of the keys is a minimum of strings *)

Lemma choose_candidate_of_candidates x d k p :
  fst (candidates_of x) = Return d ->
  min_str (dict_keys d) = Some k ->
  dict_get k d = Some p ->
  candidates_of x = (Return d, snd (candidates_of x)) /\
  choose_candidate (fst x) (symbol_list_of x) (snd x)
  = (Return p, snd (candidates_of x)).
Proof.
  unfold candidates_of, choose_candidate, bind.
  destruct (for_each _ _ _ _) as [r h']. simpl. intros -> -> ->.
  split; reflexivity.
Qed.

(** C1, evaluated where it fails. With a short position the two candidates
    have the scores [9.7] (one more [VOO]) and [12.033] (one more [VCIT]);
    [min] over the keys gives ["12.033"], and the turn takes the candidate
    with the larger score. With the twelve holdings, all long, the keys are
    ["10.007"] and ["9.715"], the second being the score of the candidate with
    one more [VOO]; [min] gives ["10.007"] and the turn takes the candidate
    recorded under it. *)
Theorem string_min_takes_the_larger_score :
  (exists h',
     candidates_of short_position
       = (Return [(str_float (9700 # 1000), 1%nat);
                  (str_float (12033 # 1000), 2%nat)], h') /\
     get_difference_from_target h' 1%nat = Return (9700 # 1000) /\
     get_difference_from_target h' 2%nat = Return (12033 # 1000) /\
     (9700 # 1000) < (12033 # 1000) /\
     min_str [str_float (9700 # 1000); str_float (12033 # 1000)]
       = Some (str_float (12033 # 1000)) /\
     choose_candidate (fst short_position) (symbol_list_of short_position)
                      (snd short_position) = (Return 2%nat, h')) /\
  (exists h',
     candidates_of twelve_holdings
       = (Return [(str_float (10007 # 1000), 11%nat);
                  (str_float (9715 # 1000), 12%nat)], h') /\
     (9715 # 1000) < (10007 # 1000) /\
     min_str [str_float (10007 # 1000); str_float (9715 # 1000)]
       = Some (str_float (10007 # 1000)) /\
     choose_candidate (fst twelve_holdings) (symbol_list_of twelve_holdings)
                      (snd twelve_holdings) = (Return 11%nat, h')).
Proof.
  split.
  - exists (snd (candidates_of short_position)).
    repeat (apply conj); vm_compute; reflexivity.
  - destruct (choose_candidate_of_candidates twelve_holdings
                [(str_float (10007 # 1000), 11%nat);
                 (str_float (9715 # 1000), 12%nat)]
                (str_float (10007 # 1000)) 11%nat) as [P C];
      try (vm_compute; reflexivity).
    exists (snd (candidates_of twelve_holdings)).
    split; [exact P|]. split; [vm_compute; reflexivity|].
    split; [vm_compute; reflexivity|exact C].
Qed.

(** ** The model on small inputs *)

Example str_float_examples :
  str_float (500 # 1000) = "0.5"%string /\
  str_float (0 # 1000) = "0.0"%string /\
  str_float (1234 # 1000) = "1.234"%string /\
  str_float (10050 # 1000) = "10.05"%string.
Proof. repeat (apply conj); reflexivity. Qed.

Example upper_example : upper "vCit" = "VCIT"%string.
Proof. reflexivity. Qed.

(** The spec's scenario: [VOO] 10 at 100.00 and [VCIT] 10 at 50.00, with 500
    to spend. Both candidates of a turn score [0.5], so that each turn takes
    the [VCIT] copy with two shares more; five turns use up the cash, and the
    portfolio returned is the one before the last turn: 18 shares of [VCIT],
    a total of 1900, and a score of [0.5] as at the start. *)
Example spec_scenario :
  exists r h',
    rebalance 10 500 (fst two_holdings) (snd two_holdings) = (Return r, h') /\
    map (fun a => quantity (asset_at h' a)) (assets (portfolio_at h' r))
      = [10%Z; 18%Z] /\
    total_value (portfolio_at h' r) == 1900 /\
    get_difference_from_target h' r = Return (500 # 1000) /\
    get_difference_from_target (snd two_holdings) (fst two_holdings)
      = Return (500 # 1000).
Proof.
  exists 9%nat, (snd (rebalance 10 500 (fst two_holdings)
                           (snd two_holdings))).
  repeat (apply conj); vm_compute; reflexivity.
Qed.

(** ** The theorems at the spec's two holdings *)

Lemma two_holdings_wf : wf_portfolio (snd two_holdings) (fst two_holdings).
Proof. concrete_wf. Defined.

Lemma two_holdings_cache_ok : cache_ok (snd two_holdings) (fst two_holdings).
Proof. vm_compute. reflexivity. Defined.

Lemma two_holdings_priced :
  Forall priced (view (snd two_holdings)
                      (assets (portfolio_at (snd two_holdings)
                                            (fst two_holdings)))).
Proof. concrete_priced. Defined.

Lemma two_holdings_total :
  0 < total_value (portfolio_at (snd two_holdings) (fst two_holdings)).
Proof. vm_compute. reflexivity. Defined.

Lemma tie_overwrites_and_buys_a_second_share_witness :
  wf_portfolio (snd after_voo) 0%nat /\
  get_asset (snd after_voo) 0%nat "VCIT" = Some 1%nat /\
  fst after_voo = Return [("0.5"%string, 1%nat)] /\
  exists h4 a',
    explore_symbol 0%nat "VCIT" [("0.5"%string, 1%nat)] (snd after_voo)
      = (Return [("0.5"%string, 2%nat)], h4) /\
    get_asset h4 2%nat "VCIT" = Some a' /\
    asset_at h4 a' = bought (asset_at (snd after_voo) 1%nat) 2.
Proof.
  assert (W : wf_portfolio (snd after_voo) 0%nat) by concrete_wf.
  assert (G : get_asset (snd after_voo) 0%nat "VCIT" = Some 1%nat)
    by (vm_compute; reflexivity).
  split; [exact W|]. split; [exact G|].
  split; [vm_compute; reflexivity|].
  pose proof (tie_overwrites_and_buys_a_second_share
                (snd after_voo) 0%nat "VCIT" [("0.5"%string, 1%nat)] 1%nat
                (500 # 1000) 1%nat W G) as T.
  cbv zeta in T.
  destruct T as (E & _ & _ & _ & a' & Ga & Ea).
  - vm_compute. reflexivity.
  - vm_compute. reflexivity.
  - vm_compute. lia.
  - eexists. exists a'. split; [|split; [exact Ga|exact Ea]].
    rewrite E. f_equal.
Defined.


Lemma unclassified_asset_stops_the_score_witness :
  (exists a, In a (assets (portfolio_at (snd with_unclassified)
                                        (fst with_unclassified))) /\
             classification (asset_at (snd with_unclassified) a) = None) /\
  get_difference_from_target (snd with_unclassified) (fst with_unclassified)
    = Raise (RuntimeError no_target_message) /\
  (exists pc,
     get_percent_classification (snd with_unclassified)
       (fst with_unclassified) (Some STOCKS_USA_SP500) = Return pc /\
     pc == 1000 # 1500) /\
  ~ In 1%nat (class_bucket (snd with_unclassified) (fst with_unclassified)
                (Some STOCKS_USA_SP500)).
Proof.
  assert (H : exists a,
             In a (assets (portfolio_at (snd with_unclassified)
                                        (fst with_unclassified))) /\
             classification (asset_at (snd with_unclassified) a) = None).
  { exists 1%nat. split; [right; left; reflexivity|reflexivity]. }
  split; [exact H|].
  destruct (unclassified_asset_stops_the_score
              (snd with_unclassified) (fst with_unclassified) H)
    as (D & P & B).
  split; [exact D|]. split.
  - eexists. split; [apply (P STOCKS_USA_SP500)|]. vm_compute. reflexivity.
  - apply B. reflexivity.
Defined.

Lemma buy_symbol_raises_iff_not_held_witness :
  wf_portfolio (snd two_holdings) (fst two_holdings) /\
  snd (buy_symbol (fst two_holdings) "VTI" 1 (snd two_holdings))
  = snd two_holdings.
Proof.
  split; [exact two_holdings_wf|].
  destruct (buy_symbol_raises_iff_not_held
              (snd two_holdings) (fst two_holdings) "VTI" 1 two_holdings_wf)
    as (_ & Unchanged & _).
  apply (Unchanged (RuntimeError "No owned shares: VTI")).
  vm_compute. reflexivity.
Defined.

Lemma buy_symbol_adds_shares_times_price_witness :
  wf_portfolio (snd two_holdings) (fst two_holdings) /\
  NoDup (assets (portfolio_at (snd two_holdings) (fst two_holdings))) /\
  cache_ok (snd two_holdings) (fst two_holdings) /\
  get_asset (snd two_holdings) (fst two_holdings) "VOO" = Some 0%nat /\
  total_value
    (portfolio_at (snd (buy_symbol (fst two_holdings) "VOO" 3
                          (snd two_holdings))) (fst two_holdings))
  == total_value (portfolio_at (snd two_holdings) (fst two_holdings))
     + inject_Z 3 * market_price (asset_at (snd two_holdings) 0%nat).
Proof.
  assert (N : NoDup (assets (portfolio_at (snd two_holdings)
                                          (fst two_holdings)))).
  { vm_compute. repeat constructor; simpl; intuition discriminate. }
  assert (G : get_asset (snd two_holdings) (fst two_holdings) "VOO"
              = Some 0%nat) by (vm_compute; reflexivity).
  split; [exact two_holdings_wf|]. split; [exact N|].
  split; [exact two_holdings_cache_ok|]. split; [exact G|].
  exact (proj1 (proj2 (buy_symbol_adds_shares_times_price
                         (snd two_holdings) (fst two_holdings) "VOO" 3 0%nat
                         two_holdings_wf N two_holdings_cache_ok G))).
Defined.

Lemma deviation_score_nonneg_zero_up_to_rounding_witness :
  0 < total_value (portfolio_at (snd two_holdings) (fst two_holdings)) /\
  (forall a, In a (assets (portfolio_at (snd two_holdings)
                                        (fst two_holdings))) ->
             classification (asset_at (snd two_holdings) a) <> None) /\
  exists d q,
    difference_loop (snd two_holdings) (fst two_holdings)
      (assets (portfolio_at (snd two_holdings) (fst two_holdings))) 0
      = Return d /\
    get_difference_from_target (snd two_holdings) (fst two_holdings)
      = Return q /\
    0 <= q /\ (q == 0 <-> d <= 1 # 2000).
Proof.
  assert (Cl : forall a,
             In a (assets (portfolio_at (snd two_holdings)
                                        (fst two_holdings))) ->
             classification (asset_at (snd two_holdings) a) <> None).
  { intros a I. simpl in I.
    repeat (destruct I as [<-|I]; [discriminate|]). destruct I. }
  split; [exact two_holdings_total|]. split; [exact Cl|].
  destruct (deviation_score_nonneg_zero_up_to_rounding
              (snd two_holdings) (fst two_holdings) two_holdings_total Cl)
    as (d & q & Ed & Eq & _ & Nq & Zq & _).
  exists d, q. auto.
Defined.

Lemma rebalance_terminates_witness :
  exists fuel r h',
    rebalance fuel 5 (fst two_holdings) (snd two_holdings) = (Return r, h').
Proof.
  exact (proj2 (proj2 (rebalance_terminates
                         (snd two_holdings) (fst two_holdings) 5
                         two_holdings_wf two_holdings_cache_ok
                         two_holdings_priced two_holdings_total))).
Defined.

Lemma lookup_is_case_sensitive_witness :
  asset_at (snd two_holdings) 0%nat = Asset_init "voo" 100 10 "" /\
  upper "Voo" = upper "voo" /\
  "Voo"%string <> upper "voo" /\
  get_asset (snd two_holdings) (fst two_holdings) "Voo" = None /\
  buy_symbol (fst two_holdings) "Voo" 1 (snd two_holdings)
    = (Raise (RuntimeError "No owned shares: Voo"), snd two_holdings) /\
  (exists a', get_asset (snd two_holdings) (fst two_holdings) (upper "voo")
              = Some a').
Proof.
  assert (U : forall b,
             In b (assets (portfolio_at (snd two_holdings)
                                        (fst two_holdings))) ->
             exists raw, symbol (asset_at (snd two_holdings) b) = upper raw).
  { intros b I. simpl in I.
    destruct I as [<-|[<-|[]]];
      [exists "voo"%string | exists "vcit"%string]; reflexivity. }
  assert (I : In 0%nat (assets (portfolio_at (snd two_holdings)
                                             (fst two_holdings))))
    by (left; reflexivity).
  assert (E : asset_at (snd two_holdings) 0%nat = Asset_init "voo" 100 10 "")
    by reflexivity.
  assert (V : upper "Voo" = upper "voo") by reflexivity.
  assert (N : "Voo"%string <> upper "voo") by discriminate.
  split; [exact E|]. split; [exact V|]. split; [exact N|].
  destruct (lookup_is_case_sensitive
              (snd two_holdings) (fst two_holdings) "voo" 100 10%Z ""
              0%nat "Voo" 1%Z U I E V N) as (G & B & F & _).
  split; [exact G|]. split; [exact B|exact F].
Defined.

(** * Further properties of the code *)

(** ** What [Asset.__init__] stores *)

Lemma round_half_even_error x :
  Qabs (inject_Z (round_half_even x) - x) <= 1 # 2.
Proof.
  destruct (Qfloor_bounds x) as [L U]. unfold round_half_even.
  apply Qabs_Qle_condition.
  destruct (Qcompare (x - inject_Z (Qfloor x)) (1 # 2)) eqn:C.
  - apply Qeq_alt in C. destruct (Z.even (Qfloor x)).
    + lra.
    + rewrite inject_Z_plus. change (inject_Z 1) with 1. lra.
  - apply Qlt_alt in C. lra.
  - apply Qgt_alt in C. rewrite inject_Z_plus. change (inject_Z 1) with 1.
    lra.
Qed.

Lemma py_round_2_error x : Qabs (py_round x 2 - x) <= 1 # 200.
Proof.
  unfold py_round. change (10 ^ Z.of_nat 2)%Z with 100%Z.
  change (Z.to_pos 100) with 100%positive.
  pose proof (round_half_even_error (x * inject_Z 100)) as E.
  set (n := round_half_even (x * inject_Z 100)) in *.
  apply Qabs_Qle_condition in E. apply Qabs_Qle_condition.
  assert (A : n # 100 == inject_Z n * (1 # 100)).
  { unfold Qeq, Qmult, inject_Z. cbn [Qnum Qden]. lia. }
  rewrite A. change (inject_Z 100) with 100 in E.
  generalize dependent (inject_Z n). intros z E _. lra.
Qed.

Lemma py_round_2_idem x : py_round (py_round x 2) 2 = py_round x 2.
Proof.
  unfold py_round at 1. change (10 ^ Z.of_nat 2)%Z with 100%Z.
  change (Z.to_pos 100) with 100%positive.
  unfold py_round. change (10 ^ Z.of_nat 2)%Z with 100%Z.
  change (Z.to_pos 100) with 100%positive.
  set (n := round_half_even (x * inject_Z 100)).
  rewrite (round_half_even_comp _ (inject_Z n)).
  - now rewrite round_half_even_inject.
  - unfold Qeq, Qmult, inject_Z. cbn [Qnum Qden]. lia.
Qed.

(** X1. The price [Asset.__init__] stores is a whole number of cents, within
    half a cent of the price given, and rounding it again changes nothing;
    the symbol stored is upper case. *)
Theorem Asset_init_price_and_symbol :
  forall s price qty descr,
    (exists cents, market_price (Asset_init s price qty descr) = cents # 100) /\
    Qabs (market_price (Asset_init s price qty descr) - price) <= 1 # 200 /\
    py_round (market_price (Asset_init s price qty descr)) 2
      = market_price (Asset_init s price qty descr) /\
    upper (symbol (Asset_init s price qty descr))
      = symbol (Asset_init s price qty descr) /\
    quantity (Asset_init s price qty descr) = qty.
Proof.
  intros s price qty descr. simpl. split; [|split; [|split; [|split]]].
  - eexists. unfold py_round. reflexivity.
  - apply py_round_2_error.
  - apply py_round_2_idem.
  - apply upper_idem.
  - reflexivity.
Qed.

(** ** The classification of symbols *)

Lemma classification_symbol s c :
  _get_classification s = Some c ->
  s = match c with
      | REAL_ESTATE => "VNQ"
      | STOCKS_EMERGING_MARKET => "VWO"
      | BONDS_CORP => "VCIT"
      | STOCKS_USA_SMALL_CAP => "VTWO"
      | STOCKS_INTERNATIONAL => "VXUS"
      | STOCKS_USA_SP500 => "VOO"
      | BONDS_EMERGING_MARKET => "VWOB"
      end%string.
Proof.
  unfold _get_classification.
  repeat match goal with
         | |- context [String.eqb s ?k] =>
             let E := fresh "E" in
             destruct (String.eqb s k) eqn:E;
             [apply String.eqb_eq in E; intros [= <-]; exact E|]
         end.
  discriminate.
Qed.

(** X2. [_get_classification] gives a class to the seven symbols it lists
    and to no other string, and no two symbols have the same class: each
    class is the class of one symbol. *)
Theorem classification_one_symbol_per_class :
  (forall s, _get_classification s <> None <-> In s known_symbols) /\
  (forall s1 s2 c,
     _get_classification s1 = Some c -> _get_classification s2 = Some c ->
     s1 = s2) /\
  (forall c, exists s, In s known_symbols /\ _get_classification s = Some c).
Proof.
  split; [|split].
  - intros s. split.
    + destruct (_get_classification s) as [c|] eqn:E; [|congruence].
      intros _. apply classification_symbol in E. subst s.
      destruct c; simpl; tauto.
    + intros I. simpl in I.
      repeat (destruct I as [<-|I]; [discriminate|]). destruct I.
  - intros s1 s2 c E1 E2. apply classification_symbol in E1, E2. congruence.
  - intros c.
    destruct c;
      [exists "VTWO"%string | exists "VOO"%string | exists "VWO"%string
      |exists "VXUS"%string | exists "VCIT"%string | exists "VWOB"%string
      |exists "VNQ"%string];
      (split; [simpl; tauto|reflexivity]).
Qed.

(** ** The asset that [get_asset] returns *)

Lemma first_with_symbol_split h s : forall l a,
  first_with_symbol h l s = Some a ->
  exists l1 l2,
    l = l1 ++ a :: l2 /\ symbol (asset_at h a) = s /\
    forall b, In b l1 -> symbol (asset_at h b) <> s.
Proof.
  induction l as [|b l IH]; intros a F.
  - discriminate.
  - rewrite first_with_symbol_cons in F.
    destruct (String.eqb (symbol (asset_at h b)) s) eqn:E.
    + injection F as <-. exists [], l. split; [reflexivity|].
      split; [now apply String.eqb_eq|]. intros ? [].
    + destruct (IH a F) as (l1 & l2 & El & Es & Hn).
      exists (b :: l1), l2. split; [now rewrite El|]. split; [exact Es|].
      intros c [<-|I]; [|now apply Hn].
      now apply String.eqb_neq.
Qed.

(** X3. The asset [get_asset] returns is the first of the list with the
    symbol: no asset before it in the list has that symbol, whatever comes
    after it. *)
Theorem get_asset_is_first_match :
  forall h p s a,
    get_asset h p s = Some a ->
    exists before after,
      assets (portfolio_at h p) = before ++ a :: after /\
      symbol (asset_at h a) = s /\
      forall b, In b before -> symbol (asset_at h b) <> s.
Proof.
  intros h p s a G. rewrite get_asset_unfold in G.
  now apply first_with_symbol_split.
Qed.

(** ** The shares of the classes *)

Lemma bucket_sum_cons h a l c :
  sum_values h
    (filter (fun b => classification_eqb (classification (asset_at h b)) c)
            (a :: l))
  == (if classification_eqb (classification (asset_at h a)) c
      then get_value h a else 0)
     + sum_values h
         (filter (fun b => classification_eqb (classification (asset_at h b)) c)
                 l).
Proof.
  simpl. destruct (classification_eqb _ c).
  - apply sum_values_cons.
  - ring.
Qed.

(** Every asset is in one bucket: that of its class, or that of [None]. *)
Lemma buckets_partition h l :
  py_sum
    (map (fun c =>
            sum_values h
              (filter (fun b => classification_eqb
                                  (classification (asset_at h b)) (Some c)) l))
         all_classes)
  + sum_values h
      (filter (fun b => classification_eqb (classification (asset_at h b)) None)
              l)
  == sum_values h l.
Proof.
  induction l as [|a l IH].
  - reflexivity.
  - rewrite sum_values_cons, <- IH. unfold all_classes, py_sum.
    cbn [map fold_left]. rewrite !bucket_sum_cons.
    destruct (classification (asset_at h a)) as [[]|]; cbn [classification_eqb
      AssetClassification_eqb]; ring.
Qed.

Lemma no_unclassified_bucket h p :
  (forall a, In a (assets (portfolio_at h p)) ->
             classification (asset_at h a) <> None) ->
  class_bucket h p None = [].
Proof.
  unfold class_bucket. generalize (assets (portfolio_at h p)).
  intros l. induction l as [|a l IH]; intros Hc; [reflexivity|].
  simpl. destruct (classification (asset_at h a)) eqn:E.
  - apply IH. intros b I. apply Hc. now right.
  - exfalso. apply (Hc a); [now left|exact E].
Qed.

(** X4. In a portfolio whose total is up to date and not zero, the
    percentages of the seven classes and the percentage that
    [get_percent_classification] gives for [None], the share of the assets
    without a class, add up to one; with every asset classified the seven
    add up to one. *)
Theorem class_percentages_add_up_to_one :
  forall h p,
    cache_ok h p ->
    ~ total_value (portfolio_at h p) == 0 ->
    exists percents unclassified,
      Forall2 (fun c pc => get_percent_classification h p (Some c) = Return pc)
              all_classes percents /\
      get_percent_classification h p None = Return unclassified /\
      py_sum percents + unclassified == 1 /\
      ((forall a, In a (assets (portfolio_at h p)) ->
                  classification (asset_at h a) <> None) ->
       py_sum percents == 1).
Proof.
  intros h p C T.
  pose proof (Qeq_bool_false_of_neq _ _ T) as T0.
  set (tv := total_value (portfolio_at h p)) in *.
  exists (map (fun c => sum_values h (class_bucket h p (Some c)) / tv)
              all_classes),
         (sum_values h (class_bucket h p None) / tv).
  assert (S : py_sum (map (fun c => sum_values h (class_bucket h p (Some c)) / tv)
                          all_classes)
              == py_sum (map (fun c => sum_values h (class_bucket h p (Some c)))
                             all_classes) / tv).
  { unfold all_classes, py_sum. cbn [map fold_left]. field. exact T. }
  pose proof (buckets_partition h (assets (portfolio_at h p))) as B.
  fold (class_bucket h p None) in B.
  unfold cache_ok in C. fold tv in C. rewrite <- C in B.
  split; [|split; [|split]].
  - unfold all_classes. cbn [map].
    repeat constructor; rewrite get_percent_classification_eq; fold tv;
      rewrite T0; reflexivity.
  - rewrite get_percent_classification_eq. fold tv. now rewrite T0.
  - rewrite S.
    setoid_replace
      (py_sum (map (fun c => sum_values h (class_bucket h p (Some c)))
                   all_classes) / tv
       + sum_values h (class_bucket h p None) / tv)
      with ((py_sum (map (fun c => sum_values h (class_bucket h p (Some c)))
                         all_classes)
             + sum_values h (class_bucket h p None)) / tv)
      by (field; exact T).
    unfold class_bucket at 1. rewrite B. field. exact T.
  - intros Hc. rewrite S.
    assert (N : class_bucket h p None = []).
    { apply no_unclassified_bucket. exact Hc. }
    rewrite N in B. unfold sum_values at 2 in B. simpl in B.
    unfold class_bucket. 
    setoid_replace
      (py_sum
         (map (fun c =>
                 sum_values h
                   (filter (fun a => classification_eqb
                                       (classification (asset_at h a)) (Some c))
                           (assets (portfolio_at h p))))
              all_classes))
      with tv by (rewrite <- B; unfold py_sum at 3; simpl; ring).
    field. exact T.
Qed.

(** ** Copies and purchases, on the values *)

Lemma asset_le_refl x : asset_le x x.
Proof. unfold asset_le. repeat split; lia. Qed.

Lemma asset_le_trans x y z : asset_le x y -> asset_le y z -> asset_le x z.
Proof. unfold asset_le. intuition (try congruence; lia). Qed.

Lemma Forall2_asset_le_refl l : Forall2 asset_le l l.
Proof. induction l; constructor; auto using asset_le_refl. Qed.

Lemma Forall2_asset_le_trans l1 : forall l2 l3,
  Forall2 asset_le l1 l2 -> Forall2 asset_le l2 l3 -> Forall2 asset_le l1 l3.
Proof.
  induction l1 as [|x l1 IH]; intros l2 l3 H12 H23;
    inversion H12; subst; inversion H23; subst; constructor.
  - eapply asset_le_trans; eauto.
  - eapply IH; eauto.
Qed.

Lemma deepcopy_portfolio_view h p w h1 :
  wf_portfolio h p ->
  deepcopy_portfolio p h = (w, h1) ->
  extends h h1 /\ w = List.length (portfolio_objs h) /\
  wf_portfolio h1 w /\
  view h1 (assets (portfolio_at h1 w)) = view h (assets (portfolio_at h p)) /\
  total_value (portfolio_at h1 w) = total_value (portfolio_at h p) /\
  Forall (fun a => (List.length (asset_objs h) <= a)%nat)
         (assets (portfolio_at h1 w)).
Proof.
  intros (Vp & Va) E. pose proof (deepcopy_portfolio_extends _ _ _ _ E) as X.
  split; [exact X|]. unfold deepcopy_portfolio in E.
  destruct (deepcopy_list _ h) as [l' h0] eqn:D.
  destruct (deepcopy_list_view _ _ _ _ D Va) as (W & V).
  destruct (deepcopy_list_fresh _ _ _ _ D) as (_ & Fr & P).
  injection E as <- <-.
  set (x := mkPortFolio l' (total_value (portfolio_at h p))).
  pose proof (portfolio_at_alloc h0 x) as Q. cbn [fst snd alloc_portfolio] in Q.
  assert (W1 : view (mkHeap (asset_objs h0) (portfolio_objs h0 ++ [x])) l'
               = view h0 l') by (apply view_same_objs; reflexivity).
  split; [now rewrite P|]. unfold wf_portfolio. rewrite Q. cbn [assets x].
  split; [split|split; [|split]].
  - simpl. rewrite length_app. simpl. lia.
  - exact V.
  - now rewrite W1.
  - reflexivity.
  - exact Fr.
Qed.

(** The copy [explore_symbol] makes of the working portfolio. *)
Lemma explored_copy_view h w l' h1 np h2 :
  wf_portfolio h w ->
  deepcopy_list (assets (portfolio_at h w)) h = (l', h1) ->
  PortFolio_init l' h1 = (np, h2) ->
  np = List.length (portfolio_objs h) /\ extends h h2 /\
  wf_portfolio h2 np /\ assets (portfolio_at h2 np) = l' /\
  view h2 l' = view h (assets (portfolio_at h w)) /\
  Forall (fun a => (List.length (asset_objs h) <= a)%nat) l'.
Proof.
  intros (Vw & Va) D I.
  destruct (deepcopy_list_view _ _ _ _ D Va) as (W & V).
  destruct (deepcopy_list_fresh _ _ _ _ D) as (X1 & Fr & P).
  apply PortFolio_init_spec in I. destruct I as (Enp & X2 & A2 & Q2 & L2).
  split; [now rewrite Enp, P|]. split; [eapply extends_trans; eauto|].
  unfold wf_portfolio. rewrite Q2. cbn [assets].
  split; [split|split; [|split]].
  - lia.
  - eapply Forall_impl; [|exact V]. intros b. unfold valid_asset.
    now rewrite A2.
  - reflexivity.
  - now rewrite (view_same_objs h1 h2 l' A2).
  - exact Fr.
Qed.

(** A successful purchase of [shares >= 0]: the portfolio is well formed
    still, with the same list, and every asset object of the store is the
    same holding with as many shares or more. *)
Lemma buy_symbol_view h p s shares h' :
  wf_portfolio h p -> (0 <= shares)%Z ->
  buy_symbol p s shares h = (Return tt, h') ->
  wf_portfolio h' p /\
  assets (portfolio_at h' p) = assets (portfolio_at h p) /\
  (forall b, asset_le (asset_at h b) (asset_at h' b)) /\
  (exists a, get_asset h p s = Some a).
Proof.
  intros (Vp & Va) Hs E.
  destruct (get_asset h p s) as [a|] eqn:G;
    [|rewrite (buy_symbol_not_found _ _ _ _ G) in E; discriminate].
  rewrite (buy_symbol_found _ _ _ _ _ G) in E. injection E as <-.
  set (h1 := set_asset a (bought (asset_at h a) shares) h).
  assert (Vp1 : (p < List.length (portfolio_objs h1))%nat) by exact Vp.
  pose proof (get_asset_In _ _ _ _ G) as [Ia _].
  assert (V : valid_asset h a).
  { rewrite Forall_forall in Va. now apply Va. }
  unfold wf_portfolio.
  rewrite (portfolio_at_update_total_value h1 p Vp1). cbn [assets].
  change (portfolio_at h1 p) with (portfolio_at h p).
  split; [split|split; [|split]].
  - unfold update_total_value. simpl. now rewrite length_update_nth.
  - eapply Forall_impl; [|exact Va]. intros b Vb.
    unfold valid_asset, update_total_value, h1. simpl.
    now rewrite length_update_nth.
  - reflexivity.
  - intros b. rewrite asset_at_update_total_value. unfold h1.
    destruct (Nat.eq_dec a b) as [<-|N].
    + rewrite asset_at_set_asset_eq by exact V.
      unfold asset_le, bought. simpl. repeat split; lia.
    + rewrite asset_at_set_asset_neq by exact N. apply asset_le_refl.
  - eauto.
Qed.

Lemma view_asset_le h h' l :
  (forall b, asset_le (asset_at h b) (asset_at h' b)) ->
  Forall2 asset_le (view h l) (view h' l).
Proof.
  intros H. induction l as [|a l IH]; simpl; constructor; auto.
Qed.

Lemma descends_extends na np V0 h h' q :
  extends h h' -> descends na np V0 h q -> descends na np V0 h' q.
Proof.
  intros X (Hq & (Vq & Va) & Fr & Le).
  pose proof (extends_portfolio_at _ _ _ X Vq) as Ep.
  pose proof (view_extends _ _ _ X Va) as Ev.
  unfold descends, wf_portfolio. rewrite Ep, Ev.
  split; [exact Hq|]. split; [split|split; assumption].
  - apply extends_length_portfolios in X. lia.
  - eapply Forall_impl; [|exact Va]. intros a. now apply valid_asset_extends.
Qed.

(** ** The portfolios the allocator goes through *)

Section Descent.

Variables na np : nat.
Variable V0 : list Asset.

Lemma explore_symbol_descends h w s d d' h' :
  (na <= List.length (asset_objs h))%nat ->
  (np <= List.length (portfolio_objs h))%nat ->
  descends na np V0 h w ->
  dict_descends na np V0 h d ->
  explore_symbol w s d h = (Return d', h') ->
  extends h h' /\ dict_descends na np V0 h' d'.
Proof.
  intros Hna Hnp (Hw & Ww & Fw & Lw) Hd E.
  pose proof (explore_symbol_extends h w s d h _ h' (extends_refl h) E) as X.
  split; [exact X|].
  rewrite explore_symbol_eq in E.
  destruct (deepcopy_list _ h) as [l' h1] eqn:D.
  remember (PortFolio_init l' h1) as i eqn:I. symmetry in I.
  destruct i as [q h2].
  destruct (explored_copy_view _ _ _ _ _ _ Ww D I)
    as (Enq & X2 & W2 & A2 & V2 & F2).
  destruct (buy_symbol q s 1 h2) as [[[]| |] h3] eqn:B1; try discriminate.
  destruct (buy_symbol_view h2 q s 1 h3 W2 ltac:(lia) B1)
    as (W3 & A3 & L3 & _).
  assert (D3 : descends na np V0 h3 q).
  { split; [lia|]. split; [exact W3|]. rewrite A3, A2. split.
    - eapply Forall_impl; [|exact F2]. simpl. intros; lia.
    - eapply Forall2_asset_le_trans; [exact Lw|]. rewrite <- V2.
      now apply view_asset_le. }
  destruct (get_difference_from_target h3 q) as [difference| |];
    try discriminate.
  cbv zeta in E.
  assert (Fin : forall hf,
             descends na np V0 hf q -> extends h hf ->
             dict_descends na np V0 hf (dict_set (str_float difference) q d)).
  { intros hf Df Xf k r. rewrite dict_get_set.
    destruct (String.eqb (str_float difference) k).
    - now intros [= <-].
    - intros G. eapply descends_extends; [exact Xf|]. now apply (Hd k). }
  destruct (dict_get (str_float difference) d) as [e|].
  - destruct (buy_symbol q s 1 h3) as [[[]| |] h4] eqn:B2; try discriminate.
    destruct (buy_symbol_view h3 q s 1 h4 W3 ltac:(lia) B2)
      as (W4 & A4 & L4 & _).
    injection E as <- <-. apply Fin; [|exact X].
    destruct D3 as (_ & _ & F3 & Le3).
    split; [lia|]. split; [exact W4|]. rewrite A4. split; [exact F3|].
    eapply Forall2_asset_le_trans; [exact Le3|]. now apply view_asset_le.
  - injection E as <- <-. apply Fin; [exact D3|exact X].
Qed.

Lemma for_each_explore_descends w : forall l d h d' h',
  (na <= List.length (asset_objs h))%nat ->
  (np <= List.length (portfolio_objs h))%nat ->
  descends na np V0 h w ->
  dict_descends na np V0 h d ->
  for_each l (explore_symbol w) d h = (Return d', h') ->
  extends h h' /\ dict_descends na np V0 h' d'.
Proof.
  induction l as [|s l IH]; intros d h d' h' Hna Hnp Dw Hd E; simpl in E.
  - unfold ret in E. injection E as <- <-. split; [apply extends_refl|exact Hd].
  - unfold bind in E.
    destruct (explore_symbol w s d h) as [[d1| |] h1] eqn:E1; try discriminate.
    destruct (explore_symbol_descends _ _ _ _ _ _ Hna Hnp Dw Hd E1)
      as (X1 & Hd1).
    destruct (IH d1 h1 d' h') as (X2 & Hd2); auto.
    + apply extends_length_assets in X1. lia.
    + apply extends_length_portfolios in X1. lia.
    + eapply descends_extends; eauto.
    + split; [eapply extends_trans; eauto|exact Hd2].
Qed.

Lemma choose_candidate_descends h w symbol_list q h' :
  (na <= List.length (asset_objs h))%nat ->
  (np <= List.length (portfolio_objs h))%nat ->
  descends na np V0 h w ->
  choose_candidate w symbol_list h = (Return q, h') ->
  extends h h' /\ descends na np V0 h' q.
Proof.
  intros Hna Hnp Dw E. unfold choose_candidate, bind in E.
  destruct (for_each _ _ _ h) as [[d| |] h1] eqn:E1; try discriminate.
  assert (Hd0 : dict_descends na np V0 h []) by (intros k r G; discriminate G).
  destruct (for_each_explore_descends _ _ _ _ _ _ Hna Hnp Dw Hd0 E1)
    as (X & Hd).
  destruct (min_str (dict_keys d)) as [k|]; [|discriminate].
  destruct (dict_get k d) as [r|] eqn:G; [|discriminate].
  unfold ret in E. injection E as <- <-. split; [exact X|]. now apply (Hd k).
Qed.

Lemma rebalance_loop_descends symbol_list fuel :
  forall cash w prev h r h',
    (na <= List.length (asset_objs h))%nat ->
    (np <= List.length (portfolio_objs h))%nat ->
    descends na np V0 h w ->
    descends na np V0 h prev ->
    rebalance_loop fuel cash w prev symbol_list h = (Return r, h') ->
    descends na np V0 h' r.
Proof.
  induction fuel as [|fuel IH]; intros cash w prev h r h' Hna Hnp Dw Dp E;
    cbn [rebalance_loop] in E.
  - destruct (Qle_bool cash 0); [|discriminate].
    unfold ret in E. now injection E as <- <-.
  - destruct (Qle_bool cash 0).
    { unfold ret in E. now injection E as <- <-. }
    unfold bind at 1 in E.
    destruct (choose_candidate w symbol_list h) as [[q| |] h1] eqn:E1;
      try discriminate.
    destruct (choose_candidate_descends _ _ _ _ _ Hna Hnp Dw E1) as (X & Dq).
    unfold bind, reading in E.
    eapply IH; [| |exact Dq| |exact E].
    + apply extends_length_assets in X. lia.
    + apply extends_length_portfolios in X. lia.
    + eapply descends_extends; eauto.
Qed.

End Descent.

Lemma rebalance_descends fuel cash p h r h' :
  wf_portfolio h p ->
  rebalance fuel cash p h = (Return r, h') ->
  descends (List.length (asset_objs h)) (List.length (portfolio_objs h))
           (view h (assets (portfolio_at h p))) h' r.
Proof.
  intros W E. unfold rebalance, bind, making, reading in E.
  destruct (deepcopy_portfolio p h) as [w h1] eqn:D.
  destruct (deepcopy_portfolio_view _ _ _ _ W D)
    as (X & Ew & Ww & Vw & _ & Fw).
  assert (Dw : descends (List.length (asset_objs h))
                 (List.length (portfolio_objs h))
                 (view h (assets (portfolio_at h p))) h1 w).
  { split; [lia|]. split; [exact Ww|]. split; [exact Fw|].
    rewrite Vw. apply Forall2_asset_le_refl. }
  eapply rebalance_loop_descends; [| |exact Dw|exact Dw|exact E].
  - apply extends_length_assets in X. lia.
  - apply extends_length_portfolios in X. lia.
Qed.

(** X5. The portfolio the allocator returns, and each of its assets, is an
    object created during the run: it is not the starting portfolio, nor an
    asset of any portfolio of the store the run started in. *)
Theorem rebalance_returns_new_objects :
  forall fuel cash p h r h',
    wf_portfolio h p ->
    rebalance fuel cash p h = (Return r, h') ->
    r <> p /\
    (List.length (portfolio_objs h) <= r < List.length (portfolio_objs h'))%nat /\
    forall a, In a (assets (portfolio_at h' r)) ->
      (List.length (asset_objs h) <= a < List.length (asset_objs h'))%nat.
Proof.
  intros fuel cash p h r h' W E.
  destruct (rebalance_descends _ _ _ _ _ _ W E) as (Hr & (Vr & Va) & Fr & _).
  destruct W as (Vp & _). split; [lia|]. split; [lia|].
  intros a I. rewrite Forall_forall in Fr, Va.
  specialize (Fr a I). specialize (Va a I). unfold valid_asset in Va. lia.
Qed.

(** X6. The allocator only adds shares: the portfolio it returns has the
    holdings of the starting portfolio, in the same order, each with the same
    symbol, price, description and class, and with as many shares or more. *)
Theorem rebalance_only_adds_shares :
  forall fuel cash p h r h',
    wf_portfolio h p ->
    rebalance fuel cash p h = (Return r, h') ->
    Forall2 asset_le (view h (assets (portfolio_at h p)))
                     (view h' (assets (portfolio_at h' r))).
Proof.
  intros fuel cash p h r h' W E.
  now destruct (rebalance_descends _ _ _ _ _ _ W E) as (_ & _ & _ & L).
Qed.

Lemma Qle_bool_false_of_pos x : 0 < x -> Qle_bool x 0 = false.
Proof.
  intros H. destruct (Qle_bool x 0) eqn:E; [|reflexivity].
  apply Qle_bool_iff in E. lra.
Qed.

Lemma rebalance_loop_no_cash fuel cash w prev symbol_list h :
  cash <= 0 ->
  rebalance_loop fuel cash w prev symbol_list h = (Return prev, h).
Proof.
  intros H. apply Qle_bool_iff in H.
  destruct fuel; cbn [rebalance_loop]; now rewrite H.
Qed.

(** X7. With no cash to invest ([cash <= 0]) the loop is not entered: the
    allocator returns the deep copy it made at the start, a new portfolio
    with the holdings and the total of the starting one. *)
Theorem rebalance_without_cash_copies :
  forall fuel cash p h,
    wf_portfolio h p ->
    cash <= 0 ->
    rebalance fuel cash p h
      = (Return (fst (deepcopy_portfolio p h)), snd (deepcopy_portfolio p h)) /\
    fst (deepcopy_portfolio p h) <> p /\
    view (snd (deepcopy_portfolio p h))
         (assets (portfolio_at (snd (deepcopy_portfolio p h))
                               (fst (deepcopy_portfolio p h))))
      = view h (assets (portfolio_at h p)) /\
    total_value (portfolio_at (snd (deepcopy_portfolio p h))
                              (fst (deepcopy_portfolio p h)))
      = total_value (portfolio_at h p).
Proof.
  intros fuel cash p h W Hc.
  unfold rebalance, bind, making, reading.
  destruct (deepcopy_portfolio p h) as [w h1] eqn:D. cbn [fst snd].
  destruct (deepcopy_portfolio_view _ _ _ _ W D) as (_ & Ew & _ & Vw & Tw & _).
  split; [now apply rebalance_loop_no_cash|].
  destruct W as (Vp & _). split; [lia|]. split; assumption.
Qed.

(** X8. A starting portfolio without assets and cash to invest: there is no
    candidate, [min] is called on no key and the allocator raises
    [ValueError]. *)
Theorem rebalance_of_no_assets_raises :
  forall fuel cash p h,
    (p < List.length (portfolio_objs h))%nat ->
    assets (portfolio_at h p) = [] ->
    0 < cash ->
    fst (rebalance (S fuel) cash p h) = Raise ValueError.
Proof.
  intros fuel cash p h Vp Ea Hc.
  unfold rebalance, bind, making, reading.
  destruct (deepcopy_portfolio p h) as [w h1] eqn:D.
  pose proof (deepcopy_portfolio_extends _ _ _ _ D) as X.
  rewrite (extends_portfolio_at _ _ _ X Vp), Ea. cbn [map rebalance_loop].
  rewrite (Qle_bool_false_of_pos _ Hc). reflexivity.
Qed.

(** ** Runs that end in an exception *)

Lemma Forall2_In_l {A B : Type} (R : A -> B -> Prop) l1 : forall l2 x,
  Forall2 R l1 l2 -> In x l1 -> exists y, In y l2 /\ R x y.
Proof.
  induction l1 as [|a l1 IH]; intros l2 x F I; [destruct I|].
  inversion F as [|? b ? l2' Rab F']; subst. destruct I as [<-|I].
  - exists b. split; [now left|exact Rab].
  - destruct (IH _ _ F' I) as (y & Iy & Rxy). exists y. split; [now right|auto].
Qed.

Lemma Forall2_In_r {A B : Type} (R : A -> B -> Prop) l1 : forall l2 y,
  Forall2 R l1 l2 -> In y l2 -> exists x, In x l1 /\ R x y.
Proof.
  induction l1 as [|a l1 IH]; intros l2 y F I;
    inversion F as [|? b ? l2' Rab F']; subst; [destruct I|].
  destruct I as [<-|I].
  - exists a. split; [now left|exact Rab].
  - destruct (IH _ _ F' I) as (x & Ix & Rxy). exists x. split; [now right|auto].
Qed.

Lemma buy_symbol_cache h p s shares h' :
  wf_portfolio h p ->
  buy_symbol p s shares h = (Return tt, h') ->
  total_value (portfolio_at h' p) = sum_values h' (assets (portfolio_at h' p)).
Proof.
  intros (Vp & _) E.
  destruct (get_asset h p s) as [a|] eqn:G;
    [|rewrite (buy_symbol_not_found _ _ _ _ G) in E; discriminate].
  rewrite (buy_symbol_found _ _ _ _ _ G) in E. injection E as <-.
  set (h1 := set_asset a (bought (asset_at h a) shares) h).
  assert (Vp1 : (p < List.length (portfolio_objs h1))%nat) by exact Vp.
  rewrite (portfolio_at_update_total_value h1 p Vp1). reflexivity.
Qed.

(** The first part of [explore_symbol], for a symbol that is held: the copy
    with one share more, whose score is asked for next. *)
Lemma explore_symbol_candidate h w s d :
  wf_portfolio h w ->
  In s (map (fun a => symbol (asset_at h a)) (assets (portfolio_at h w))) ->
  exists q h3,
    wf_portfolio h3 q /\
    Forall2 asset_le (view h (assets (portfolio_at h w)))
                     (view h3 (assets (portfolio_at h3 q))) /\
    total_value (portfolio_at h3 q)
      = sum_values h3 (assets (portfolio_at h3 q)) /\
    forall e, get_difference_from_target h3 q = Raise e ->
              explore_symbol w s d h = (Raise e, h3).
Proof.
  intros Ww Is. rewrite explore_symbol_eq.
  destruct (deepcopy_list _ h) as [l' h1] eqn:D.
  remember (PortFolio_init l' h1) as i eqn:I. symmetry in I.
  destruct i as [q h2].
  destruct (explored_copy_view _ _ _ _ _ _ Ww D I)
    as (Enq & X2 & W2 & A2 & V2 & F2).
  assert (G2 : exists a2, get_asset h2 q s = Some a2).
  { rewrite <- (map_map (asset_at h) symbol) in Is.
    fold (view h (assets (portfolio_at h w))) in Is. rewrite <- V2 in Is.
    unfold view in Is. rewrite map_map in Is. apply in_map_iff in Is.
    destruct Is as (b & Eb & Ib). apply (get_asset_exists h2 q s b).
    - now rewrite A2.
    - exact Eb. }
  destruct G2 as (a2 & G2).
  pose proof (buy_symbol_found h2 q s 1 a2 G2) as B1.
  set (h3 := update_total_value q
               (set_asset a2 (bought (asset_at h2 a2) 1) h2)) in *.
  destruct (buy_symbol_view h2 q s 1 h3 W2 ltac:(lia) B1) as (W3 & A3 & L3 & _).
  exists q, h3. split; [exact W3|]. split; [|split].
  - rewrite A3, A2, <- V2. now apply view_asset_le.
  - exact (buy_symbol_cache h2 q s 1 h3 W2 B1).
  - intros e Ee. rewrite B1, Ee. reflexivity.
Qed.

(** With cash and an asset, the run depends on the score of the first
    candidate: an exception there is the outcome of the run. *)
Lemma rebalance_first_candidate fuel cash p h :
  wf_portfolio h p ->
  assets (portfolio_at h p) <> [] ->
  0 < cash ->
  exists q h3,
    wf_portfolio h3 q /\
    Forall2 asset_le (view h (assets (portfolio_at h p)))
                     (view h3 (assets (portfolio_at h3 q))) /\
    total_value (portfolio_at h3 q)
      = sum_values h3 (assets (portfolio_at h3 q)) /\
    forall e, get_difference_from_target h3 q = Raise e ->
              fst (rebalance (S fuel) cash p h) = Raise e.
Proof.
  intros W Ne Hc.
  unfold rebalance, bind, making, reading.
  destruct (deepcopy_portfolio p h) as [w h1] eqn:D.
  destruct (deepcopy_portfolio_view _ _ _ _ W D) as (X & _ & Ww & Vw & _ & _).
  pose proof W as (Vp & Va).
  rewrite (extends_portfolio_at _ _ _ X Vp).
  cbn [rebalance_loop]. rewrite (Qle_bool_false_of_pos _ Hc).
  unfold bind at 1. unfold choose_candidate. unfold bind at 1.
  destruct (assets (portfolio_at h p)) as [|a0 l0] eqn:E0; [congruence|].
  cbn [map for_each]. unfold bind at 1.
  destruct (explore_symbol_candidate h1 w (symbol (asset_at h1 a0)) [] Ww)
    as (q & h3 & W3 & L3 & C3 & R3).
  { assert (S : map (fun b => symbol (asset_at h1 b))
                    (assets (portfolio_at h1 w))
                = map symbol (view h1 (assets (portfolio_at h1 w))))
      by (unfold view; now rewrite map_map).
    rewrite S, Vw. unfold view. rewrite map_map. cbn [map]. left.
    f_equal. symmetry. apply extends_asset_at; [exact X|].
    inversion Va; assumption. }
  rewrite Vw in L3. exists q, h3.
  split; [exact W3|]. split; [exact L3|]. split; [exact C3|].
  intros e Ee. rewrite (R3 _ Ee). reflexivity.
Qed.

(** A holding without a class, and cash: the score of the first candidate
    raises, and so does the run. *)
Lemma rebalance_unclassified :
  forall fuel cash p h,
    wf_portfolio h p ->
    (exists a, In a (assets (portfolio_at h p)) /\
               classification (asset_at h a) = None) ->
    0 < cash ->
    fst (rebalance (S fuel) cash p h) = Raise ZeroDivisionError \/
    fst (rebalance (S fuel) cash p h) = Raise (RuntimeError no_target_message).
Proof.
  intros fuel cash p h W (a & Ia & Ea) Hc.
  assert (Ne : assets (portfolio_at h p) <> []).
  { intros E. rewrite E in Ia. destruct Ia. }
  destruct (rebalance_first_candidate fuel cash p h W Ne Hc)
    as (q & h3 & W3 & L3 & C3 & R3).
  destruct (Forall2_In_l _ _ _ (asset_at h a) L3) as (y & Iy & Ly).
  { unfold view. apply in_map. exact Ia. }
  unfold view in Iy. apply in_map_iff in Iy. destruct Iy as (a' & <- & Ia').
  assert (Rz : get_difference_from_target h3 q
               = Raise (if Qeq_bool (total_value (portfolio_at h3 q)) 0
                        then ZeroDivisionError
                        else RuntimeError no_target_message)).
  { unfold get_difference_from_target.
    rewrite difference_loop_unclassified; [reflexivity| |].
    - intros E. rewrite E in Ia'. destruct Ia'.
    - right. exists a'. split; [exact Ia'|].
      destruct Ly as (_ & _ & _ & Ec & _). congruence. }
  rewrite (R3 _ Rz).
  destruct (Qeq_bool (total_value (portfolio_at h3 q)) 0); auto.
Qed.

(** X9. With cash to invest and a holding that has no class, the allocator
    does not return: the score of the first candidate cannot be computed and
    the exception of [get_difference_from_target] ends the run,
    [RuntimeError] from [get_percentage_target], or [ZeroDivisionError] when
    that candidate is worth nothing. *)
Theorem rebalance_with_unclassified_raises :
  forall fuel cash p h,
    wf_portfolio h p ->
    (exists a, In a (assets (portfolio_at h p)) /\
               classification (asset_at h a) = None) ->
    0 < cash ->
    fst (rebalance (S fuel) cash p h) = Raise ZeroDivisionError \/
    fst (rebalance (S fuel) cash p h) = Raise (RuntimeError no_target_message).
Proof. exact rebalance_unclassified. Qed.

Lemma sum_values_zero_prices h l :
  (forall b, In b l -> market_price (asset_at h b) == 0) ->
  sum_values h l == 0.
Proof.
  induction l as [|a l IH]; intros H.
  - reflexivity.
  - rewrite sum_values_cons, IH by (intros b I; apply H; now right).
    unfold get_value. rewrite (H a) by now left. ring.
Qed.

(** X10. With cash to invest and holdings that all have the price zero, the
    first candidate is worth nothing and the allocator raises
    [ZeroDivisionError]. *)
Theorem rebalance_at_price_zero_raises :
  forall fuel cash p h,
    wf_portfolio h p ->
    assets (portfolio_at h p) <> [] ->
    (forall a, In a (assets (portfolio_at h p)) ->
               market_price (asset_at h a) == 0) ->
    0 < cash ->
    fst (rebalance (S fuel) cash p h) = Raise ZeroDivisionError.
Proof.
  intros fuel cash p h W Ne Hz Hc.
  destruct (rebalance_first_candidate fuel cash p h W Ne Hc)
    as (q & h3 & W3 & L3 & C3 & R3).
  apply R3.
  assert (Z : Qeq_bool (total_value (portfolio_at h3 q)) 0 = true).
  { apply Qeq_bool_iff. rewrite C3. apply sum_values_zero_prices.
    intros b Ib.
    destruct (Forall2_In_r _ _ _ (asset_at h3 b) L3) as (x & Ix & Lx).
    { unfold view. now apply in_map. }
    unfold view in Ix. apply in_map_iff in Ix. destruct Ix as (a & <- & Ia).
    destruct Lx as (_ & Ep & _). rewrite <- Ep. now apply Hz. }
  unfold get_difference_from_target.
  rewrite difference_loop_unclassified; [now rewrite Z| |now left].
  apply Forall2_length in L3. unfold view in L3. rewrite !length_map in L3.
  intros E. rewrite E in L3.
  destruct (assets (portfolio_at h p)); [congruence|discriminate].
Qed.

(** ** The purchases between two portfolios *)

Lemma sum_values_app h l1 : forall l2,
  sum_values h (l1 ++ l2) == sum_values h l1 + sum_values h l2.
Proof.
  induction l1 as [|a l1 IH]; intros l2; simpl.
  - unfold sum_values at 2. unfold py_sum. simpl. ring.
  - rewrite !sum_values_cons, IH. ring.
Qed.

Lemma sum_values_single h a : sum_values h [a] == get_value h a.
Proof. unfold sum_values, py_sum. simpl. ring. Qed.

Lemma sum_values_extends h h' l :
  extends h h' -> Forall (valid_asset h) l -> sum_values h' l = sum_values h l.
Proof.
  intros X F. apply sum_values_same_view. now apply view_extends.
Qed.

Lemma get_asset_extends h h' p s :
  extends h h' -> wf_portfolio h p -> get_asset h' p s = get_asset h p s.
Proof.
  intros X (Vp & Va). unfold get_asset.
  rewrite (extends_portfolio_at _ _ _ X Vp).
  rewrite (filter_ext_in _ (fun a => String.eqb (symbol (asset_at h a)) s));
    [reflexivity|].
  intros a I. rewrite Forall_forall in Va.
  now rewrite (extends_asset_at _ _ _ X (Va a I)).
Qed.

Lemma valid_asset_alloc h x :
  valid_asset (snd (alloc_asset x h)) (fst (alloc_asset x h)) /\
  asset_at (snd (alloc_asset x h)) (fst (alloc_asset x h)) = x.
Proof.
  unfold valid_asset, asset_at. simpl. rewrite length_app. simpl.
  split; [lia|]. rewrite app_nth2 by lia. now rewrite Nat.sub_diag.
Qed.

(** What [difference_assets] puts in its list: what was there, assets of
    the new portfolio whose symbol is not held at the start, and new
    objects; the store only grows. *)
Lemma difference_assets_shape sp : forall l acc h r h',
  difference_assets sp l acc h = (r, h') ->
  extends h h' /\ portfolio_objs h' = portfolio_objs h /\
  (forall a, In a acc -> In a r) /\
  (forall a, In a r ->
     In a acc \/ In a l \/
     (List.length (asset_objs h) <= a < List.length (asset_objs h'))%nat).
Proof.
  induction l as [|n l IH]; intros acc h r h' E; cbn [difference_assets] in E.
  - injection E as <- <-. split; [apply extends_refl|]. split; [reflexivity|].
    split; auto.
  - cbv zeta in E.
    destruct (get_asset h sp (symbol (asset_at h n))) as [s|].
    + destruct (0 <? quantity (asset_at h n) - quantity (asset_at h s))%Z.
      * cbn [alloc_asset] in E. apply IH in E.
        destruct E as (X & P & Ha & Hr).
        pose proof (extends_alloc_asset h
                      (Asset_init (symbol (asset_at h n))
                         (market_price (asset_at h n))
                         (quantity (asset_at h n) - quantity (asset_at h s))
                         (description (asset_at h n)))) as X0.
        cbn [snd alloc_asset] in X0.
        split; [eapply extends_trans; eauto|]. split; [exact P|]. split.
        -- intros a I. apply Ha. apply in_or_app. now left.
        -- intros a I. destruct (Hr a I) as [Ia|[Il|Hn]].
           ++ apply in_app_or in Ia. destruct Ia as [Ia|[<-|[]]]; [now left|].
              right. right. apply extends_length_assets in X. simpl in X.
              rewrite length_app in X. simpl in X. lia.
           ++ right. left. now right.
           ++ right. right. simpl in Hn. rewrite length_app in Hn.
              simpl in Hn. lia.
      * apply IH in E. destruct E as (X & P & Ha & Hr).
        split; [exact X|]. split; [exact P|]. split; [exact Ha|].
        intros a I. destruct (Hr a I) as [Ia|[Il|Hn]]; auto.
        right. left. now right.
    + apply IH in E. destruct E as (X & P & Ha & Hr).
      split; [exact X|]. split; [exact P|]. split.
      * intros a I. apply Ha. apply in_or_app. now left.
      * intros a I. destruct (Hr a I) as [Ia|[Il|Hn]]; auto.
        -- apply in_app_or in Ia. destruct Ia as [Ia|[<-|[]]]; [now left|].
           right. left. now left.
        -- right. left. now right.
Qed.

(** X11. [get_difference_portfolio] changes no object: the store after the
    call is the store before it followed by the objects it created, the
    portfolio it returns being one of them. *)
Theorem get_difference_portfolio_changes_nothing :
  forall sp np h,
    (exists created_assets created_portfolios,
       asset_objs (snd (get_difference_portfolio sp np h))
         = asset_objs h ++ created_assets /\
       portfolio_objs (snd (get_difference_portfolio sp np h))
         = portfolio_objs h ++ created_portfolios) /\
    fst (get_difference_portfolio sp np h) = List.length (portfolio_objs h).
Proof.
  intros sp np h. unfold get_difference_portfolio.
  destruct (difference_assets sp _ [] h) as [r h1] eqn:E.
  apply difference_assets_shape in E. destruct E as (X & P & _).
  remember (PortFolio_init r h1) as i eqn:I. symmetry in I.
  destruct i as [d h2]. cbn [fst snd].
  apply PortFolio_init_spec in I. destruct I as (Ed & X2 & _).
  split; [|now rewrite Ed, P].
  destruct (extends_trans _ _ _ X X2) as [[sa Ha] [spp Hp]]. eauto.
Qed.

Lemma difference_assets_shares h sp : forall l acc hc r h',
  extends h hc -> wf_portfolio h sp -> Forall (valid_asset h) l ->
  difference_assets sp l acc hc = (r, h') ->
  forall a, In a l -> get_asset h sp (symbol (asset_at h a)) = None ->
            In a r.
Proof.
  induction l as [|n l IH]; intros acc hc r h' X W V E a I G; [destruct I|].
  inversion V as [|? ? Vn Vl]; subst.
  cbn [difference_assets] in E. cbv zeta in E.
  rewrite (extends_asset_at _ _ _ X Vn) in E.
  rewrite (get_asset_extends _ _ _ _ X W) in E.
  destruct I as [<-|I].
  - rewrite G in E. apply difference_assets_shape in E.
    destruct E as (_ & _ & Ha & _). apply Ha. apply in_or_app. right.
    now left.
  - destruct (get_asset h sp (symbol (asset_at h n))) as [s|].
    + destruct (0 <? quantity (asset_at h n) - quantity (asset_at hc s))%Z.
      * cbn [alloc_asset] in E.
        eapply (IH _ _ _ _ _ W Vl E); eauto.
      * eapply (IH _ _ _ _ X W Vl E); eauto.
    + eapply (IH _ _ _ _ X W Vl E); eauto.
  Unshelve.
  eapply extends_trans; [exact X|].
  apply (extends_alloc_asset hc).
Qed.

(** X12. In the portfolio [get_difference_portfolio] returns, an asset of
    the new portfolio whose symbol is not held at the start is that very
    object, shared with the new portfolio and not copied; every other asset
    of the result is an object created by the call. *)
Theorem get_difference_portfolio_shares_new_symbols :
  forall sp np h,
    wf_portfolio h sp -> wf_portfolio h np ->
    let d := fst (get_difference_portfolio sp np h) in
    let h' := snd (get_difference_portfolio sp np h) in
    (forall a, In a (assets (portfolio_at h np)) ->
               get_asset h sp (symbol (asset_at h a)) = None ->
               In a (assets (portfolio_at h' d))) /\
    (forall b, In b (assets (portfolio_at h' d)) ->
               In b (assets (portfolio_at h np)) \/
               (List.length (asset_objs h) <= b)%nat).
Proof.
  intros sp np h Ws (Vn & Van). cbv zeta. unfold get_difference_portfolio.
  destruct (difference_assets sp _ [] h) as [r h1] eqn:E.
  remember (PortFolio_init r h1) as i eqn:I. symmetry in I.
  destruct i as [d h2]. cbn [fst snd].
  apply PortFolio_init_spec in I. destruct I as (_ & _ & _ & Q & _).
  rewrite Q. cbn [assets]. split.
  - intros a Ia G.
    eapply (difference_assets_shares h sp _ _ h _ _ (extends_refl h) Ws Van E);
      eauto.
  - intros b Ib. apply difference_assets_shape in E.
    destruct E as (_ & _ & _ & Hr).
    destruct (Hr b Ib) as [[]|[Il|Hn]]; [now left|right; lia].
Qed.

(** The start asset that [get_asset] finds for a symbol, the symbols of the
    start being pairwise distinct. *)
Lemma first_with_symbol_unique h : forall l1 s l2,
  NoDup (map (fun a => symbol (asset_at h a)) (l1 ++ s :: l2)) ->
  first_with_symbol h (l1 ++ s :: l2) (symbol (asset_at h s)) = Some s.
Proof.
  induction l1 as [|b l1 IH]; intros s l2 N; simpl in *.
  - rewrite first_with_symbol_cons, String.eqb_refl. reflexivity.
  - rewrite first_with_symbol_cons. inversion N as [|? ? Nb Nl]; subst.
    destruct (String.eqb (symbol (asset_at h b)) (symbol (asset_at h s))) eqn:E.
    + exfalso. apply String.eqb_eq in E. apply Nb. rewrite E.
      rewrite map_app. apply in_or_app. right. now left.
    + now apply IH.
Qed.

Lemma difference_assets_total h sp : forall ls ln acc hc r h',
  extends h hc -> wf_portfolio h sp ->
  Forall (valid_asset h) ln -> Forall (valid_asset hc) acc ->
  Forall2 (fun s n =>
             asset_le (asset_at h s) (asset_at h n) /\
             get_asset h sp (symbol (asset_at h n)) = Some s /\
             py_round (market_price (asset_at h n)) 2
               == market_price (asset_at h n)) ls ln ->
  difference_assets sp ln acc hc = (r, h') ->
  sum_values h' r
  == sum_values hc acc + (sum_values h ln - sum_values h ls).
Proof.
  induction ls as [|s ls IH]; intros ln acc hc r h' X W Vl Va F E;
    inversion F as [|? n ? ln' (Le & G & R) F']; subst.
  - cbn [difference_assets] in E. injection E as <- <-.
    unfold sum_values at 3 4. unfold py_sum. simpl. ring.
  - inversion Vl as [|? ? Vn Vl']; subst.
    cbn [difference_assets] in E. cbv zeta in E.
    rewrite (extends_asset_at _ _ _ X Vn) in E.
    rewrite (get_asset_extends _ _ _ _ X W), G in E.
    assert (Vs : valid_asset h s).
    { apply get_asset_In in G. destruct G as [Is _].
      destruct W as (_ & Vsp). rewrite Forall_forall in Vsp. now apply Vsp. }
    rewrite (extends_asset_at _ _ _ X Vs) in E.
    destruct Le as (_ & Ep & _ & _ & Lq).
    rewrite !sum_values_cons. unfold get_value at 1 2.
    destruct (0 <? quantity (asset_at h n) - quantity (asset_at h s))%Z eqn:B.
    + cbn [alloc_asset] in E.
      set (x := Asset_init (symbol (asset_at h n)) (market_price (asset_at h n))
                  (quantity (asset_at h n) - quantity (asset_at h s))
                  (description (asset_at h n))) in *.
      pose proof (extends_alloc_asset hc x) as X0.
      destruct (valid_asset_alloc hc x) as (Vx & Ex).
      cbn [fst snd alloc_asset] in X0, Vx, Ex.
      set (hc1 := mkHeap (asset_objs hc ++ [x]) (portfolio_objs hc)) in *.
      rewrite (IH ln' _ hc1 r h' (extends_trans _ _ _ X X0) W Vl'
                 ltac:(apply Forall_app; split;
                       [eapply Forall_impl; [|exact Va]; intros b;
                        now apply valid_asset_extends
                       |constructor; [exact Vx|constructor]]) F' E).
      assert (Val : get_value hc1 (List.length (asset_objs hc))
                    == inject_Z (quantity (asset_at h n)
                                 - quantity (asset_at h s))
                       * market_price (asset_at h n)).
      { unfold get_value. rewrite Ex. unfold x.
        cbn [quantity market_price Asset_init]. now rewrite R. }
      rewrite sum_values_app, (sum_values_extends hc hc1 acc X0 Va).
      rewrite sum_values_single, Val, Ep. unfold Z.sub.
      rewrite inject_Z_plus, inject_Z_opp. ring.
    + apply Z.ltb_ge in B. assert (Eq : quantity (asset_at h n)
                                         = quantity (asset_at h s)) by lia.
      rewrite (IH ln' _ hc r h' X W Vl' Va F' E). rewrite Eq, Ep. ring.
Qed.

Lemma difference_pairs h sp ln : forall l1 ls,
  assets (portfolio_at h sp) = l1 ++ ls ->
  NoDup (map (fun a => symbol (asset_at h a)) (assets (portfolio_at h sp))) ->
  Forall2 asset_le (view h ls) (view h ln) ->
  Forall (fun x => py_round (market_price x) 2 == market_price x) (view h ln) ->
  Forall2 (fun s n =>
             asset_le (asset_at h s) (asset_at h n) /\
             get_asset h sp (symbol (asset_at h n)) = Some s /\
             py_round (market_price (asset_at h n)) 2
               == market_price (asset_at h n)) ls ln.
Proof.
  revert ln. induction ln as [|n ln IH]; intros l1 ls El N F C;
    destruct ls as [|s ls]; inversion F; subst; constructor.
  - inversion C; subst. split; [assumption|]. split; [|assumption].
    rewrite get_asset_unfold, El.
    match goal with H : asset_le _ _ |- _ => destruct H as (Es & _) end.
    rewrite <- Es. apply first_with_symbol_unique. now rewrite <- El.
  - inversion C; subst. apply (IH (l1 ++ [s])); auto.
    now rewrite <- app_assoc.
Qed.

Lemma difference_total sp np h :
  wf_portfolio h sp -> wf_portfolio h np ->
  cache_ok h sp -> cache_ok h np ->
  NoDup (map (fun a => symbol (asset_at h a)) (assets (portfolio_at h sp))) ->
  Forall2 asset_le (view h (assets (portfolio_at h sp)))
                   (view h (assets (portfolio_at h np))) ->
  Forall (fun x => py_round (market_price x) 2 == market_price x)
         (view h (assets (portfolio_at h np))) ->
  total_value (portfolio_at (snd (get_difference_portfolio sp np h))
                            (fst (get_difference_portfolio sp np h)))
  == total_value (portfolio_at h np) - total_value (portfolio_at h sp).
Proof.
  intros Ws (Vn & Van) Cs Cn N F C.
  unfold get_difference_portfolio.
  destruct (difference_assets sp _ [] h) as [r h1] eqn:E.
  remember (PortFolio_init r h1) as i eqn:I. symmetry in I.
  destruct i as [d h2]. cbn [fst snd].
  apply PortFolio_init_spec in I. destruct I as (_ & _ & _ & Q & _).
  rewrite Q. cbn [total_value].
  rewrite (difference_assets_total h sp _ _ [] h r h1 (extends_refl h) Ws Van
             (Forall_nil _)
             (difference_pairs h sp _ [] _ eq_refl N F C) E).
  unfold cache_ok in Cs, Cn. rewrite Cs, Cn.
  unfold sum_values at 1. unfold py_sum at 1. simpl. ring.
Qed.

(** X13. When the new portfolio has the holdings of the starting one, in
    the same order, with as many shares or more (as the allocator leaves
    them), the symbols of the start being pairwise distinct and the prices
    whole cents, the total of the portfolio [get_difference_portfolio]
    returns is the total of the new portfolio less the total of the starting
    one: the cost of the purchases. *)
Theorem get_difference_portfolio_total :
  forall sp np h,
    wf_portfolio h sp -> wf_portfolio h np ->
    cache_ok h sp -> cache_ok h np ->
    NoDup (map (fun a => symbol (asset_at h a)) (assets (portfolio_at h sp))) ->
    Forall2 asset_le (view h (assets (portfolio_at h sp)))
                     (view h (assets (portfolio_at h np))) ->
    Forall (fun x => py_round (market_price x) 2 == market_price x)
           (view h (assets (portfolio_at h np))) ->
    total_value (portfolio_at (snd (get_difference_portfolio sp np h))
                              (fst (get_difference_portfolio sp np h)))
    == total_value (portfolio_at h np) - total_value (portfolio_at h sp).
Proof. intros sp np h. apply difference_total. Qed.

(** ** The cost of a run *)




(** ** Building the portfolio *)

Lemma generate_fold records : forall l0 h0,
  fold_left
    (fun (acc : list aref * Heap) (r : string * Q * Z * string) =>
       let '(s, price, qty, descr) := r in
       let (a, h1) := alloc_asset (Asset_init s price qty descr) (snd acc) in
       (fst acc ++ [a], h1))
    records (l0, h0)
  = (l0 ++ seq (List.length (asset_objs h0)) (List.length records),
     mkHeap (asset_objs h0 ++ map record_asset records) (portfolio_objs h0)).
Proof.
  induction records as [|[[[s price] qty] descr] records IH]; intros l0 h0.
  - simpl. rewrite !app_nil_r. now destruct h0.
  - cbn [fold_left].
    match goal with
    | |- fold_left ?f _ ?acc = _ =>
        change acc
          with (l0 ++ [List.length (asset_objs h0)],
                mkHeap (asset_objs h0 ++ [Asset_init s price qty descr])
                       (portfolio_objs h0))
    end.
    rewrite IH. cbn [asset_objs portfolio_objs List.length map seq].
    rewrite length_app. cbn [List.length]. rewrite Nat.add_1_r.
    rewrite <- !app_assoc. reflexivity.
Qed.

Lemma nth_seq_app (d : Asset) L : forall l,
  map (fun i => nth i (l ++ L) d) (seq (List.length l) (List.length L)) = L.
Proof.
  induction L as [|x L IH]; intros l.
  - reflexivity.
  - cbn [List.length seq map]. f_equal.
    + rewrite app_nth2 by lia. now rewrite Nat.sub_diag.
    + specialize (IH (l ++ [x])). rewrite length_app in IH.
      cbn [List.length] in IH. rewrite Nat.add_1_r in IH.
      rewrite <- app_assoc in IH. exact IH.
Qed.

Lemma generate_portfolio_spec records h p h' :
  generate_portfolio records h = (p, h') ->
  extends h h' /\ wf_portfolio h' p /\ cache_ok h' p /\
  NoDup (assets (portfolio_at h' p)) /\
  view h' (assets (portfolio_at h' p)) = map record_asset records.
Proof.
  unfold generate_portfolio. rewrite generate_fold. cbn [app].
  set (l := seq (List.length (asset_objs h)) (List.length records)).
  set (h1 := mkHeap (asset_objs h ++ map record_asset records)
                    (portfolio_objs h)).
  intros I. apply PortFolio_init_spec in I.
  destruct I as (Ep & X & Ea & Q & Lp).
  assert (X1 : extends h h1).
  { split; [exists (map record_asset records)|exists []]; simpl;
      [reflexivity|now rewrite app_nil_r]. }
  split; [eapply extends_trans; eauto|].
  rewrite Q. cbn [assets total_value].
  split; [|split; [|split]].
  - split; [lia|]. rewrite Q. cbn [assets]. apply Forall_forall.
    intros a Ia. apply in_seq in Ia. unfold valid_asset. rewrite Ea.
    simpl. rewrite length_app, length_map. lia.
  - unfold cache_ok. rewrite Q. cbn [assets total_value].
    rewrite (sum_values_same_view h1 h' l l); [reflexivity|].
    unfold view. apply map_ext. intros a. unfold asset_at. now rewrite Ea.
  - apply seq_NoDup.
  - unfold view, asset_at. rewrite Ea. subst l h1. cbn [asset_objs].
    rewrite <- (length_map record_asset records).
    apply (nth_seq_app _ (map record_asset records) (asset_objs h)).
Qed.

(** X15. [generate_portfolio] leaves the objects there were as they are and
    returns a portfolio in good order: its references are valid and pairwise
    distinct (one new object per record), its cached total is up to date,
    and its assets are, in the order of the records, what [Asset.__init__]
    makes of each of them. *)
Theorem generate_portfolio_is_in_good_order :
  forall records h,
    extends h (snd (generate_portfolio records h)) /\
    wf_portfolio (snd (generate_portfolio records h))
                 (fst (generate_portfolio records h)) /\
    cache_ok (snd (generate_portfolio records h))
             (fst (generate_portfolio records h)) /\
    NoDup (assets (portfolio_at (snd (generate_portfolio records h))
                                (fst (generate_portfolio records h)))) /\
    view (snd (generate_portfolio records h))
         (assets (portfolio_at (snd (generate_portfolio records h))
                               (fst (generate_portfolio records h))))
    = map record_asset records.
Proof.
  intros records h. apply generate_portfolio_spec.
  now destruct (generate_portfolio records h).
Qed.

(** ** From the records to the new portfolio *)



(** X17. A record whose symbol, in upper case, is none of the seven the
    program knows stops the run of [main]: [generate_portfolio] builds the
    portfolio and [rebalance_portfolio] raises, [RuntimeError] from
    [get_percentage_target], or [ZeroDivisionError] when the first candidate
    is worth nothing. The filter of [parse_positions_to_dict] lets every
    symbol through that starts with V. *)
Theorem generated_unknown_symbol_raises :
  forall records h fuel,
    Exists (fun r => classification (record_asset r) = None) records ->
    fst (rebalance_portfolio (S fuel) (fst (generate_portfolio records h))
                             (snd (generate_portfolio records h)))
    = Raise ZeroDivisionError \/
    fst (rebalance_portfolio (S fuel) (fst (generate_portfolio records h))
                             (snd (generate_portfolio records h)))
    = Raise (RuntimeError no_target_message).
Proof.
  intros records h fuel Ex.
  destruct (generate_portfolio records h) as [p h1] eqn:G. cbn [fst snd].
  apply generate_portfolio_spec in G. destruct G as (_ & W & _ & _ & V).
  apply rebalance_unclassified; [exact W| |reflexivity].
  apply Exists_exists in Ex. destruct Ex as (r & Ir & Er).
  assert (I : In (record_asset r) (view h1 (assets (portfolio_at h1 p)))).
  { rewrite V. now apply in_map. }
  unfold view in I. apply in_map_iff in I. destruct I as (a & Ea & Ia).
  exists a. split; [exact Ia|]. now rewrite Ea.
Qed.

(** ** Two portfolios with one asset object *)

(** X18. [buy_symbol] updates the total of its own portfolio only: another
    portfolio that holds the same asset object (as the result of
    [get_difference_portfolio] does for a newly held symbol) keeps its
    cached total, which is then out of date whenever the purchase is worth
    something. *)
Theorem buy_symbol_leaves_a_sharing_portfolio_stale :
  forall h p q s n a,
    p <> q ->
    wf_portfolio h p ->
    get_asset h p s = Some a ->
    In a (assets (portfolio_at h q)) ->
    cache_ok h q ->
    ~ inject_Z n * market_price (asset_at h a) == 0 ->
    portfolio_at (snd (buy_symbol p s n h)) q = portfolio_at h q /\
    ~ cache_ok (snd (buy_symbol p s n h)) q.
Proof.
  intros h p q s n a Npq (Vp & Va) G Iq Cq Nz.
  rewrite (buy_symbol_found _ _ _ _ _ G). cbn [snd].
  set (h1 := set_asset a (bought (asset_at h a) n) h).
  assert (Eq1 : portfolio_at (update_total_value p h1) q = portfolio_at h q).
  { now rewrite portfolio_at_update_total_value_neq. }
  split; [exact Eq1|].
  unfold cache_ok. rewrite Eq1, sum_values_update_total_value.
  assert (V : valid_asset h a).
  { rewrite Forall_forall in Va. apply Va. now apply (get_asset_In h p s a). }
  rewrite (sum_values_change h h1 a
             (inject_Z n * market_price (asset_at h a))).
  - unfold cache_ok in Cq. rewrite Cq. intros E.
    assert (K : (1 <= Z.of_nat
                        (count_occ Nat.eq_dec (assets (portfolio_at h q)) a))%Z).
    { apply (count_occ_In Nat.eq_dec) in Iq. lia. }
    rewrite Zle_Qle in K.
    set (k := inject_Z (Z.of_nat
                 (count_occ Nat.eq_dec (assets (portfolio_at h q)) a))) in *.
    set (d := inject_Z n * market_price (asset_at h a)) in *.
    assert (Z : k * d == 0) by lra.
    apply Qmult_integral in Z. destruct Z as [Z|Z]; [|now apply Nz].
    change (inject_Z 1) with 1 in K. lra.
  - intros b Nb. unfold get_value, h1.
    now rewrite asset_at_set_asset_neq by congruence.
  - unfold get_value, h1. rewrite asset_at_set_asset_eq by exact V.
    unfold bought. cbn [quantity market_price]. rewrite inject_Z_plus. ring.
Qed.

(** ** The table of targets *)

(** X19. [get_percentage_target] has a target for each member of
    [AssetClassification], each of them positive, and the seven targets add
    up to one; it raises for [None] alone. *)
Theorem percentage_targets_cover_the_classes :
  (forall c, exists t, get_percentage_target (Some c) = Return t /\ 0 < t) /\
  (forall c e, get_percentage_target c = Raise e ->
               c = None /\ e = RuntimeError no_target_message) /\
  exists targets,
    Forall2 (fun c t => get_percentage_target (Some c) = Return t)
            all_classes targets /\
    py_sum targets == 1.
Proof.
  split; [|split].
  - intros []; eexists; (split; [reflexivity|]); reflexivity.
  - intros [[]|] e E; try discriminate. injection E as <-. now split.
  - eexists. split.
    + repeat (apply Forall2_cons; [reflexivity|]). apply Forall2_nil.
    + vm_compute. reflexivity.
Qed.

(** ** The further properties at example stores *)

Lemma get_asset_is_first_match_witness :
  get_asset (snd two_holdings) (fst two_holdings) "VCIT" = Some 1%nat /\
  exists before after,
    assets (portfolio_at (snd two_holdings) (fst two_holdings))
      = before ++ 1%nat :: after /\
    symbol (asset_at (snd two_holdings) 1%nat) = "VCIT"%string /\
    forall b, In b before ->
              symbol (asset_at (snd two_holdings) b) <> "VCIT"%string.
Proof.
  assert (G : get_asset (snd two_holdings) (fst two_holdings) "VCIT"
              = Some 1%nat) by (vm_compute; reflexivity).
  split; [exact G|].
  exact (get_asset_is_first_match (snd two_holdings) (fst two_holdings)
           "VCIT" 1%nat G).
Defined.

Lemma two_holdings_total_nonzero :
  ~ total_value (portfolio_at (snd two_holdings) (fst two_holdings)) == 0.
Proof. intros E. vm_compute in E. discriminate. Defined.

Lemma class_percentages_add_up_to_one_witness :
  cache_ok (snd two_holdings) (fst two_holdings) /\
  ~ total_value (portfolio_at (snd two_holdings) (fst two_holdings)) == 0 /\
  exists percents unclassified,
    Forall2 (fun c pc =>
               get_percent_classification (snd two_holdings)
                 (fst two_holdings) (Some c) = Return pc)
            all_classes percents /\
    get_percent_classification (snd two_holdings) (fst two_holdings) None
      = Return unclassified /\
    py_sum percents + unclassified == 1.
Proof.
  split; [exact two_holdings_cache_ok|].
  split; [exact two_holdings_total_nonzero|].
  destruct (class_percentages_add_up_to_one
              (snd two_holdings) (fst two_holdings)
              two_holdings_cache_ok two_holdings_total_nonzero)
    as (percents & unclassified & F & U & S & _).
  exists percents, unclassified. auto.
Defined.

Lemma after_run_result :
  rebalance 10 120 (fst two_holdings) (snd two_holdings)
  = (Return 3%nat, snd after_run).
Proof. vm_compute. reflexivity. Defined.

Lemma rebalance_returns_new_objects_witness :
  wf_portfolio (snd two_holdings) (fst two_holdings) /\
  rebalance 10 120 (fst two_holdings) (snd two_holdings)
    = (Return 3%nat, snd after_run) /\
  3%nat <> fst two_holdings /\
  (List.length (portfolio_objs (snd two_holdings)) <= 3
   < List.length (portfolio_objs (snd after_run)))%nat.
Proof.
  split; [exact two_holdings_wf|]. split; [exact after_run_result|].
  destruct (rebalance_returns_new_objects 10 120 (fst two_holdings)
              (snd two_holdings) 3%nat (snd after_run)
              two_holdings_wf after_run_result) as (N & B & _).
  split; [exact N|exact B].
Defined.

Lemma rebalance_only_adds_shares_witness :
  wf_portfolio (snd two_holdings) (fst two_holdings) /\
  rebalance 10 120 (fst two_holdings) (snd two_holdings)
    = (Return 3%nat, snd after_run) /\
  Forall2 asset_le
    (view (snd two_holdings)
          (assets (portfolio_at (snd two_holdings) (fst two_holdings))))
    (view (snd after_run) (assets (portfolio_at (snd after_run) 3%nat))).
Proof.
  split; [exact two_holdings_wf|]. split; [exact after_run_result|].
  exact (rebalance_only_adds_shares 10 120 (fst two_holdings)
           (snd two_holdings) 3%nat (snd after_run)
           two_holdings_wf after_run_result).
Defined.

Lemma rebalance_without_cash_copies_witness :
  wf_portfolio (snd two_holdings) (fst two_holdings) /\
  0 <= 0 /\
  rebalance 10 0 (fst two_holdings) (snd two_holdings)
  = (Return (fst (deepcopy_portfolio (fst two_holdings) (snd two_holdings))),
     snd (deepcopy_portfolio (fst two_holdings) (snd two_holdings))).
Proof.
  split; [exact two_holdings_wf|]. split; [apply Qle_refl|].
  exact (proj1 (rebalance_without_cash_copies 10 0 (fst two_holdings)
                  (snd two_holdings) two_holdings_wf (Qle_refl 0))).
Defined.

Lemma rebalance_of_no_assets_raises_witness :
  (fst no_holdings < List.length (portfolio_objs (snd no_holdings)))%nat /\
  assets (portfolio_at (snd no_holdings) (fst no_holdings)) = [] /\
  0 < 5 /\
  fst (rebalance 1 5 (fst no_holdings) (snd no_holdings)) = Raise ValueError.
Proof.
  assert (V : (fst no_holdings
               < List.length (portfolio_objs (snd no_holdings)))%nat)
    by (vm_compute; lia).
  assert (E : assets (portfolio_at (snd no_holdings) (fst no_holdings)) = [])
    by reflexivity.
  assert (C : 0 < 5) by reflexivity.
  split; [exact V|]. split; [exact E|]. split; [exact C|].
  exact (rebalance_of_no_assets_raises 0 5 (fst no_holdings)
           (snd no_holdings) V E C).
Defined.

Lemma rebalance_with_unclassified_raises_witness :
  wf_portfolio (snd with_unclassified) (fst with_unclassified) /\
  (exists a, In a (assets (portfolio_at (snd with_unclassified)
                                        (fst with_unclassified))) /\
             classification (asset_at (snd with_unclassified) a) = None) /\
  0 < 5 /\
  (fst (rebalance 1 5 (fst with_unclassified) (snd with_unclassified))
     = Raise ZeroDivisionError \/
   fst (rebalance 1 5 (fst with_unclassified) (snd with_unclassified))
     = Raise (RuntimeError no_target_message)).
Proof.
  assert (W : wf_portfolio (snd with_unclassified) (fst with_unclassified))
    by concrete_wf.
  assert (H : exists a,
             In a (assets (portfolio_at (snd with_unclassified)
                                        (fst with_unclassified))) /\
             classification (asset_at (snd with_unclassified) a) = None).
  { exists 1%nat. split; [right; left; reflexivity|reflexivity]. }
  assert (C : 0 < 5) by reflexivity.
  split; [exact W|]. split; [exact H|]. split; [exact C|].
  exact (rebalance_with_unclassified_raises 0 5 (fst with_unclassified)
           (snd with_unclassified) W H C).
Defined.

Lemma rebalance_at_price_zero_raises_witness :
  wf_portfolio (snd free_holding) (fst free_holding) /\
  assets (portfolio_at (snd free_holding) (fst free_holding)) <> [] /\
  (forall a, In a (assets (portfolio_at (snd free_holding)
                                        (fst free_holding))) ->
             market_price (asset_at (snd free_holding) a) == 0) /\
  0 < 5 /\
  fst (rebalance 1 5 (fst free_holding) (snd free_holding))
    = Raise ZeroDivisionError.
Proof.
  assert (W : wf_portfolio (snd free_holding) (fst free_holding))
    by concrete_wf.
  assert (N : assets (portfolio_at (snd free_holding) (fst free_holding))
              <> []) by discriminate.
  assert (Z : forall a,
             In a (assets (portfolio_at (snd free_holding)
                                        (fst free_holding))) ->
             market_price (asset_at (snd free_holding) a) == 0).
  { intros a I. simpl in I. destruct I as [<-|[]]. vm_compute. reflexivity. }
  assert (C : 0 < 5) by reflexivity.
  split; [exact W|]. split; [exact N|]. split; [exact Z|]. split; [exact C|].
  exact (rebalance_at_price_zero_raises 0 5 (fst free_holding)
           (snd free_holding) W N Z C).
Defined.

Lemma after_run_start_wf : wf_portfolio (snd after_run) (fst two_holdings).
Proof. vm_compute. split; [lia|repeat constructor]. Defined.

Lemma after_run_wf : wf_portfolio (snd after_run) 3%nat.
Proof. vm_compute. split; [lia|repeat constructor]. Defined.

Lemma get_difference_portfolio_shares_new_symbols_witness :
  wf_portfolio (snd after_run) (fst two_holdings) /\
  wf_portfolio (snd after_run) 3%nat /\
  forall b,
    In b (assets (portfolio_at
                    (snd (get_difference_portfolio (fst two_holdings) 3%nat
                            (snd after_run)))
                    (fst (get_difference_portfolio (fst two_holdings) 3%nat
                            (snd after_run))))) ->
    In b (assets (portfolio_at (snd after_run) 3%nat)) \/
    (List.length (asset_objs (snd after_run)) <= b)%nat.
Proof.
  split; [exact after_run_start_wf|]. split; [exact after_run_wf|].
  exact (proj2 (get_difference_portfolio_shares_new_symbols
                  (fst two_holdings) 3%nat (snd after_run)
                  after_run_start_wf after_run_wf)).
Defined.

Lemma get_difference_portfolio_total_witness :
  wf_portfolio (snd after_run) (fst two_holdings) /\
  wf_portfolio (snd after_run) 3%nat /\
  cache_ok (snd after_run) (fst two_holdings) /\
  cache_ok (snd after_run) 3%nat /\
  total_value
    (portfolio_at (snd (get_difference_portfolio (fst two_holdings) 3%nat
                          (snd after_run)))
                  (fst (get_difference_portfolio (fst two_holdings) 3%nat
                          (snd after_run))))
  == total_value (portfolio_at (snd after_run) 3%nat)
     - total_value (portfolio_at (snd after_run) (fst two_holdings)).
Proof.
  assert (Cs : cache_ok (snd after_run) (fst two_holdings))
    by (vm_compute; reflexivity).
  assert (Cn : cache_ok (snd after_run) 3%nat) by (vm_compute; reflexivity).
  assert (N : NoDup (map (fun a => symbol (asset_at (snd after_run) a))
                         (assets (portfolio_at (snd after_run)
                                               (fst two_holdings))))).
  { vm_compute. repeat constructor; simpl; intuition discriminate. }
  assert (F : Forall2 asset_le
                (view (snd after_run)
                      (assets (portfolio_at (snd after_run)
                                            (fst two_holdings))))
                (view (snd after_run)
                      (assets (portfolio_at (snd after_run) 3%nat)))).
  { vm_compute. repeat constructor; discriminate. }
  assert (C : Forall (fun x => py_round (market_price x) 2 == market_price x)
                (view (snd after_run)
                      (assets (portfolio_at (snd after_run) 3%nat)))).
  { vm_compute. repeat constructor. }
  split; [exact after_run_start_wf|]. split; [exact after_run_wf|].
  split; [exact Cs|]. split; [exact Cn|].
  exact (get_difference_portfolio_total (fst two_holdings) 3%nat
           (snd after_run) after_run_start_wf after_run_wf Cs Cn N F C).
Defined.




Lemma generated_unknown_symbol_raises_witness :
  Exists (fun r => classification (record_asset r) = None)
         [("VOO"%string, 100, 10%Z, ""%string);
          ("VTI"%string, 50, 10%Z, ""%string)] /\
  (fst (rebalance_portfolio 1 (fst with_unclassified) (snd with_unclassified))
     = Raise ZeroDivisionError \/
   fst (rebalance_portfolio 1 (fst with_unclassified) (snd with_unclassified))
     = Raise (RuntimeError no_target_message)).
Proof.
  assert (X : Exists (fun r => classification (record_asset r) = None)
                [("VOO"%string, 100, 10%Z, ""%string);
                 ("VTI"%string, 50, 10%Z, ""%string)]).
  { apply Exists_cons_tl, Exists_cons_hd. reflexivity. }
  split; [exact X|].
  exact (generated_unknown_symbol_raises
           [("VOO"%string, 100, 10%Z, ""%string);
            ("VTI"%string, 50, 10%Z, ""%string)] empty_heap 0%nat X).
Defined.

Lemma buy_symbol_leaves_a_sharing_portfolio_stale_witness :
  fst with_difference = 2%nat /\
  wf_portfolio (snd with_difference) 1%nat /\
  get_asset (snd with_difference) 1%nat "VCIT" = Some 2%nat /\
  In 2%nat (assets (portfolio_at (snd with_difference) 2%nat)) /\
  cache_ok (snd with_difference) 2%nat /\
  portfolio_at (snd (buy_symbol 1%nat "VCIT" 1 (snd with_difference))) 2%nat
    = portfolio_at (snd with_difference) 2%nat /\
  ~ cache_ok (snd (buy_symbol 1%nat "VCIT" 1 (snd with_difference))) 2%nat.
Proof.
  assert (N : 1%nat <> 2%nat) by discriminate.
  assert (W : wf_portfolio (snd with_difference) 1%nat)
    by (vm_compute; split; [lia|repeat constructor]).
  assert (G : get_asset (snd with_difference) 1%nat "VCIT" = Some 2%nat)
    by (vm_compute; reflexivity).
  assert (I : In 2%nat (assets (portfolio_at (snd with_difference) 2%nat)))
    by (vm_compute; left; reflexivity).
  assert (C : cache_ok (snd with_difference) 2%nat)
    by (vm_compute; reflexivity).
  assert (Z : ~ inject_Z 1 * market_price (asset_at (snd with_difference) 2%nat)
                == 0).
  { intros E. vm_compute in E. discriminate. }
  split; [vm_compute; reflexivity|]. split; [exact W|]. split; [exact G|].
  split; [exact I|]. split; [exact C|].
  exact (buy_symbol_leaves_a_sharing_portfolio_stale
           (snd with_difference) 1%nat 2%nat "VCIT" 1 2%nat N W G I C Z).
Defined.
